(** * Bravia TV update coordinator: a shallow embedding and its properties

    The development follows [custom_components/braviatv/coordinator.py].
    The coordinator object is an explicit record, the device client is an
    oracle answering each call from the history of earlier calls, and a
    method is a function from the world before it to the world after it
    together with either a return value or the exception it raises.
    Attribute writes made before an exception stay written, as in Python.

    Conventions of the embedding:
    - a Python [str] is a [string]; prefix and substring tests are byte-wise,
      which agrees with Python on UTF-8 encoded text;
    - [str.lower], [str.isnumeric], [int(str)], [datetime.fromisoformat] and
      [datetime.now] belong to the Python runtime and are taken as
      components of [Runtime]; every general theorem holds for all of them;
    - a payload dictionary is a record whose fields tell a missing key from a
      JSON null from a value;
    - a float is given by a rational and is the binary64 number nearest to
      it ([Py.float], [Py.round64]): [volume / 100] is the float nearest to
      the quotient, and where the code rounds or truncates a float the
      arithmetic before it is that of binary64;
    - a coroutine runs from start to end without interleaving, and logger
      calls leave no trace. *)

From Stdlib Require Import List String Ascii Bool ZArith QArith Lia.
Import ListNotations.

Local Open Scope string_scope.
Local Open Scope Z_scope.

(** ** Python values *)

Module Py.

(** One key of a payload dictionary. *)
Inductive field (A : Type) : Type :=
| Missing
| Null
| Val (a : A).
Arguments Missing {A}.
Arguments Null {A}.
Arguments Val {A} a.

(** [d.get(k)] *)
Definition get {A} (f : field A) : option A :=
  match f with
  | Val a => Some a
  | _ => None
  end.

(** [d.get(k, default)] *)
Definition get_or {A} (f : field A) (default : option A) : option A :=
  match f with
  | Missing => default
  | Null => None
  | Val a => Some a
  end.

Definition present {A} (f : field A) : bool :=
  match f with
  | Missing => false
  | _ => true
  end.

(** Truth value of a [str | None]. *)
Definition truthy (v : option string) : bool :=
  match v with
  | Some s => negb (s =? "")%string
  | None => false
  end.

(** [a or b] *)
Definition or_else (a b : option string) : option string :=
  if truthy a then a else b.

(** [s.startswith(p)] *)
Fixpoint startswith (s p : string) : bool :=
  match p with
  | EmptyString => true
  | String b p' =>
      match s with
      | EmptyString => false
      | String a s' => Ascii.eqb a b && startswith s' p'
      end
  end.

(** [needle in hay] on strings. *)
Fixpoint contains (needle hay : string) : bool :=
  startswith hay needle ||
  match hay with
  | EmptyString => false
  | String _ rest => contains needle rest
  end.

(** [x in l] on a list of strings. *)
Fixpoint mem (x : string) (l : list string) : bool :=
  match l with
  | [] => false
  | y :: l' => (x =? y)%string || mem x l'
  end.

(** [s.startswith((p1, p2, ...))] *)
Definition startswith_any (s : string) (ps : list string) : bool :=
  existsb (startswith s) ps.

(** *** Dictionaries in insertion order

    A [dict] keeps its keys in the order of their first insertion;
    assigning to a key that is already there replaces the value in
    place. *)
Definition dict (V : Type) : Type := list (string * V).

Fixpoint dict_get {V} (d : dict V) (k : string) : option V :=
  match d with
  | [] => None
  | (k', v) :: d' => if (k =? k')%string then Some v else dict_get d' k
  end.

Definition dict_mem {V} (d : dict V) (k : string) : bool :=
  match dict_get d k with
  | Some _ => true
  | None => false
  end.

Fixpoint dict_set {V} (d : dict V) (k : string) (v : V) : dict V :=
  match d with
  | [] => [(k, v)]
  | (k', v') :: d' =>
      if (k =? k')%string then (k', v) :: d' else (k', v') :: dict_set d' k v
  end.

Definition keys {V} (d : dict V) : list string := map fst d.

(** *** [sorted(l, key=...)]

    The sort is stable and compares keys with [<] only.  A key is a
    string or [None]; comparing [None] raises [TypeError], which happens
    as soon as the list has two elements and one [None] key. *)
Fixpoint insert_by {A} (key : A -> string) (x : A) (l : list A) : list A :=
  match l with
  | [] => [x]
  | y :: l' =>
      if String.ltb (key y) (key x) then y :: insert_by key x l'
      else x :: l
  end.

Fixpoint sort_by {A} (key : A -> string) (l : list A) : list A :=
  match l with
  | [] => []
  | x :: l' => insert_by key x (sort_by key l')
  end.

Definition is_none {A} (o : option A) : bool :=
  match o with
  | None => true
  | Some _ => false
  end.

Definition sorted {A} (key : A -> option string) (l : list A)
  : option (list A) :=
  if (2 <=? List.length l)%nat && existsb (fun x => is_none (key x)) l
  then None
  else Some (sort_by (fun x => match key x with Some s => s | None => "" end) l).

(** [round(x)] of a float with the value [x]: to the nearest integer,
    ties to the even one. *)
Definition round (x : Q) : Z :=
  let n := Qnum x in
  let d := Z.pos (Qden x) in
  let q := n / d in
  let r := n mod d in
  match 2 * r ?= d with
  | Lt => q
  | Gt => q + 1
  | Eq => if Z.even q then q else q + 1
  end.

(** *** Floats

    [round64 x] is the binary64 number nearest to [x], ties to the even
    significand, with gradual underflow: the result of [float(x)], of the
    true division of two integers and of a float product whose exact
    value is [x].  It does not overflow; [is_inf] tells when IEEE
    arithmetic gives an infinity instead. *)

(** [a / (d * 2^e)] *)
Definition scaled (a d e : Z) : Q :=
  if 0 <=? e then a # Z.to_pos (d * 2 ^ e) else (a * 2 ^ (- e)) # Z.to_pos d.

Definition round64 (x : Q) : Q :=
  let n := Qnum x in
  let d := Z.pos (Qden x) in
  if n =? 0 then 0%Q
  else
    let a := Z.abs n in
    let e0 := Z.log2 a - Z.log2 d - 52 in
    let e1 := if Qnum (scaled a d e0) <? Z.pos (Qden (scaled a d e0)) * 2 ^ 52
              then e0 - 1 else e0 in
    let e := Z.max e1 (-1074) in
    let m := Z.sgn n * round (scaled a d e) in
    if 0 <=? e then (m * 2 ^ e) # 1 else m # Z.to_pos (2 ^ (- e)).

Definition is_inf (x : Q) : bool :=
  2 ^ 1024 * Z.pos (Qden x) <=? Z.abs (Qnum x).

(** [int(delta.total_seconds())] for a [timedelta] of [span]
    microseconds: the true division by [10**6], then truncation toward
    zero. *)
Definition total_seconds_int (span : Z) : Z :=
  let seconds := round64 (span # 1000000) in
  Z.quot (Qnum seconds) (Z.pos (Qden seconds)).

(** A Python float.  [finite x] is the binary64 number nearest to the
    rational [x], of value [round64 x]. *)
Inductive float : Type :=
| finite (x : Q)
| infinity
| nan.

Arguments round64 : simpl never.
Arguments is_inf : simpl never.
Arguments total_seconds_int : simpl never.

End Py.
Import Py.

(** ** Data model *)

(** [SourceType] and [MediaType] are string enumerations: a member
    compares equal to its value, so a [MediaType] handed to the resolver
    is compared with the [SourceType] of an entry as a string. *)
Module SourceType.
(** Modelled from the spec: [const.py], which declares [SourceType], is
    not among the sources; the spec gives the kinds INPUT, APP and
    CHANNEL, and APP has the value of [MediaType.APP]. *)
Definition APP : string := "app".

(** Modelled from the spec: the CHANNEL kind of [SourceType] in
    [const.py], with the value of [MediaType.CHANNEL]. *)
Definition CHANNEL : string := "channel".

(** Modelled from the spec: the INPUT kind of [SourceType] in
    [const.py]. *)
Definition INPUT : string := "input".
End SourceType.

(** [MediaType] of Home Assistant's media player component, the two
    members the coordinator names. *)
Module MediaType.
Definition APP : string := "app".
Definition CHANNEL : string := "channel".
End MediaType.

(** An element of the lists returned by [get_external_status],
    [get_app_list] and [get_content_list_all]. *)
Record Item : Type := mkItem {
  i_title : field string;
  i_label : field string;
  i_uri : field string;
  i_dispNum : field string
}.

(** [item.get(k)] for the keys the coordinator reads. *)
Definition item_field (k : string) (it : Item) : field string :=
  if (k =? "title")%string then i_title it
  else if (k =? "label")%string then i_label it
  else if (k =? "uri")%string then i_uri it
  else if (k =? "dispNum")%string then i_dispNum it
  else Missing.

(** A value of [source_map]: [{**item, "type": source_type}]. *)
Record Entry : Type := mkEntry {
  e_item : Item;
  e_type : string
}.

(** The payload of [get_playing_info]. [p_other_keys] lists the keys the
    coordinator never reads; the payload is empty when no key is present. *)
Record PlayingInfo : Type := mkPlayingInfo {
  p_title : field string;
  p_uri : field string;
  p_label : field string;
  p_dispNum : field string;
  p_programTitle : field string;
  p_startDateTime : field string;
  p_durationSec : field Z;
  p_other_keys : list string
}.

Definition playing_info_empty (p : PlayingInfo) : bool :=
  negb (present (p_title p) || present (p_uri p) || present (p_label p)
        || present (p_dispNum p) || present (p_programTitle p)
        || present (p_startDateTime p) || present (p_durationSec p))
  && match p_other_keys p with [] => true | _ => false end.

(** The payload of [get_volume_info]. *)
Record VolumeInfo : Type := mkVolumeInfo {
  v_volume : field Z;
  v_mute : field bool;
  v_target : field string
}.

(** The attributes of [BraviaTVCoordinator]. *)
Record Coordinator : Type := mkCoordinator {
  pin : string;
  use_psk : bool;
  client_id : string;
  nickname : string;
  enable_user_labels : bool;
  system_info : list (string * string);
  source : option string;
  source_list : list string;
  source_map : dict Entry;
  media_title : option string;
  media_channel : option string;
  media_content_id : option string;
  media_content_type : option string;
  media_uri : option string;
  media_duration : option Z;
  media_position : option Z;
  media_position_updated_at : option Z;
  volume_level : option float;
  volume_target : option string;
  volume_muted : option bool;
  is_on : bool;
  connected : bool;
  skipped_updates : Z
}.

(** [__init__] *)
Definition init (pin_ : string) (use_psk_ : bool) (client_id_ nickname_ : string)
    (enable_user_labels_ : bool) : Coordinator :=
  mkCoordinator pin_ use_psk_ client_id_ nickname_ enable_user_labels_
    [] None [] [] None None None None None None None None None None
    (Some false) false false 0.

(** Attribute assignment. *)
Definition set_system_info (v : list (string * string)) (s : Coordinator) : Coordinator :=
  mkCoordinator (pin s) (use_psk s) (client_id s) (nickname s)
    (enable_user_labels s) v (source s) (source_list s) (source_map s)
    (media_title s) (media_channel s) (media_content_id s)
    (media_content_type s) (media_uri s) (media_duration s)
    (media_position s) (media_position_updated_at s) (volume_level s)
    (volume_target s) (volume_muted s) (is_on s) (connected s)
    (skipped_updates s).

Definition set_source (v : option string) (s : Coordinator) : Coordinator :=
  mkCoordinator (pin s) (use_psk s) (client_id s) (nickname s)
    (enable_user_labels s) (system_info s) v (source_list s) (source_map s)
    (media_title s) (media_channel s) (media_content_id s)
    (media_content_type s) (media_uri s) (media_duration s)
    (media_position s) (media_position_updated_at s) (volume_level s)
    (volume_target s) (volume_muted s) (is_on s) (connected s)
    (skipped_updates s).

Definition set_source_list (v : list string) (s : Coordinator) : Coordinator :=
  mkCoordinator (pin s) (use_psk s) (client_id s) (nickname s)
    (enable_user_labels s) (system_info s) (source s) v (source_map s)
    (media_title s) (media_channel s) (media_content_id s)
    (media_content_type s) (media_uri s) (media_duration s)
    (media_position s) (media_position_updated_at s) (volume_level s)
    (volume_target s) (volume_muted s) (is_on s) (connected s)
    (skipped_updates s).

Definition set_source_map (v : dict Entry) (s : Coordinator) : Coordinator :=
  mkCoordinator (pin s) (use_psk s) (client_id s) (nickname s)
    (enable_user_labels s) (system_info s) (source s) (source_list s) v
    (media_title s) (media_channel s) (media_content_id s)
    (media_content_type s) (media_uri s) (media_duration s)
    (media_position s) (media_position_updated_at s) (volume_level s)
    (volume_target s) (volume_muted s) (is_on s) (connected s)
    (skipped_updates s).

Definition set_media_title (v : option string) (s : Coordinator) : Coordinator :=
  mkCoordinator (pin s) (use_psk s) (client_id s) (nickname s)
    (enable_user_labels s) (system_info s) (source s) (source_list s)
    (source_map s) v (media_channel s) (media_content_id s)
    (media_content_type s) (media_uri s) (media_duration s)
    (media_position s) (media_position_updated_at s) (volume_level s)
    (volume_target s) (volume_muted s) (is_on s) (connected s)
    (skipped_updates s).

Definition set_media_channel (v : option string) (s : Coordinator) : Coordinator :=
  mkCoordinator (pin s) (use_psk s) (client_id s) (nickname s)
    (enable_user_labels s) (system_info s) (source s) (source_list s)
    (source_map s) (media_title s) v (media_content_id s)
    (media_content_type s) (media_uri s) (media_duration s)
    (media_position s) (media_position_updated_at s) (volume_level s)
    (volume_target s) (volume_muted s) (is_on s) (connected s)
    (skipped_updates s).

Definition set_media_content_id (v : option string) (s : Coordinator) : Coordinator :=
  mkCoordinator (pin s) (use_psk s) (client_id s) (nickname s)
    (enable_user_labels s) (system_info s) (source s) (source_list s)
    (source_map s) (media_title s) (media_channel s) v
    (media_content_type s) (media_uri s) (media_duration s)
    (media_position s) (media_position_updated_at s) (volume_level s)
    (volume_target s) (volume_muted s) (is_on s) (connected s)
    (skipped_updates s).

Definition set_media_content_type (v : option string) (s : Coordinator) : Coordinator :=
  mkCoordinator (pin s) (use_psk s) (client_id s) (nickname s)
    (enable_user_labels s) (system_info s) (source s) (source_list s)
    (source_map s) (media_title s) (media_channel s) (media_content_id s) v
    (media_uri s) (media_duration s) (media_position s)
    (media_position_updated_at s) (volume_level s) (volume_target s)
    (volume_muted s) (is_on s) (connected s) (skipped_updates s).

Definition set_media_uri (v : option string) (s : Coordinator) : Coordinator :=
  mkCoordinator (pin s) (use_psk s) (client_id s) (nickname s)
    (enable_user_labels s) (system_info s) (source s) (source_list s)
    (source_map s) (media_title s) (media_channel s) (media_content_id s)
    (media_content_type s) v (media_duration s) (media_position s)
    (media_position_updated_at s) (volume_level s) (volume_target s)
    (volume_muted s) (is_on s) (connected s) (skipped_updates s).

Definition set_media_duration (v : option Z) (s : Coordinator) : Coordinator :=
  mkCoordinator (pin s) (use_psk s) (client_id s) (nickname s)
    (enable_user_labels s) (system_info s) (source s) (source_list s)
    (source_map s) (media_title s) (media_channel s) (media_content_id s)
    (media_content_type s) (media_uri s) v (media_position s)
    (media_position_updated_at s) (volume_level s) (volume_target s)
    (volume_muted s) (is_on s) (connected s) (skipped_updates s).

Definition set_media_position (v : option Z) (s : Coordinator) : Coordinator :=
  mkCoordinator (pin s) (use_psk s) (client_id s) (nickname s)
    (enable_user_labels s) (system_info s) (source s) (source_list s)
    (source_map s) (media_title s) (media_channel s) (media_content_id s)
    (media_content_type s) (media_uri s) (media_duration s) v
    (media_position_updated_at s) (volume_level s) (volume_target s)
    (volume_muted s) (is_on s) (connected s) (skipped_updates s).

Definition set_media_position_updated_at (v : option Z) (s : Coordinator) : Coordinator :=
  mkCoordinator (pin s) (use_psk s) (client_id s) (nickname s)
    (enable_user_labels s) (system_info s) (source s) (source_list s)
    (source_map s) (media_title s) (media_channel s) (media_content_id s)
    (media_content_type s) (media_uri s) (media_duration s)
    (media_position s) v (volume_level s) (volume_target s) (volume_muted s)
    (is_on s) (connected s) (skipped_updates s).

Definition set_volume_level (v : option float) (s : Coordinator) : Coordinator :=
  mkCoordinator (pin s) (use_psk s) (client_id s) (nickname s)
    (enable_user_labels s) (system_info s) (source s) (source_list s)
    (source_map s) (media_title s) (media_channel s) (media_content_id s)
    (media_content_type s) (media_uri s) (media_duration s)
    (media_position s) (media_position_updated_at s) v (volume_target s)
    (volume_muted s) (is_on s) (connected s) (skipped_updates s).

Definition set_volume_target (v : option string) (s : Coordinator) : Coordinator :=
  mkCoordinator (pin s) (use_psk s) (client_id s) (nickname s)
    (enable_user_labels s) (system_info s) (source s) (source_list s)
    (source_map s) (media_title s) (media_channel s) (media_content_id s)
    (media_content_type s) (media_uri s) (media_duration s)
    (media_position s) (media_position_updated_at s) (volume_level s) v
    (volume_muted s) (is_on s) (connected s) (skipped_updates s).

Definition set_volume_muted (v : option bool) (s : Coordinator) : Coordinator :=
  mkCoordinator (pin s) (use_psk s) (client_id s) (nickname s)
    (enable_user_labels s) (system_info s) (source s) (source_list s)
    (source_map s) (media_title s) (media_channel s) (media_content_id s)
    (media_content_type s) (media_uri s) (media_duration s)
    (media_position s) (media_position_updated_at s) (volume_level s)
    (volume_target s) v (is_on s) (connected s) (skipped_updates s).

Definition set_is_on (v : bool) (s : Coordinator) : Coordinator :=
  mkCoordinator (pin s) (use_psk s) (client_id s) (nickname s)
    (enable_user_labels s) (system_info s) (source s) (source_list s)
    (source_map s) (media_title s) (media_channel s) (media_content_id s)
    (media_content_type s) (media_uri s) (media_duration s)
    (media_position s) (media_position_updated_at s) (volume_level s)
    (volume_target s) (volume_muted s) v (connected s) (skipped_updates s).

Definition set_connected (v : bool) (s : Coordinator) : Coordinator :=
  mkCoordinator (pin s) (use_psk s) (client_id s) (nickname s)
    (enable_user_labels s) (system_info s) (source s) (source_list s)
    (source_map s) (media_title s) (media_channel s) (media_content_id s)
    (media_content_type s) (media_uri s) (media_duration s)
    (media_position s) (media_position_updated_at s) (volume_level s)
    (volume_target s) (volume_muted s) (is_on s) v (skipped_updates s).

Definition set_skipped_updates (v : Z) (s : Coordinator) : Coordinator :=
  mkCoordinator (pin s) (use_psk s) (client_id s) (nickname s)
    (enable_user_labels s) (system_info s) (source s) (source_list s)
    (source_map s) (media_title s) (media_channel s) (media_content_id s)
    (media_content_type s) (media_uri s) (media_duration s)
    (media_position s) (media_position_updated_at s) (volume_level s)
    (volume_target s) (volume_muted s) (is_on s) (connected s) v.

(** ** Exceptions *)

(** The exception classes of [pybravia]; every one derives from
    [BraviaError].  [BraviaOther] stands for [BraviaError] itself and for
    the subclasses the coordinator does not name. *)
Inductive bravia_error : Type :=
| BraviaAuthError
| BraviaConnectionError
| BraviaConnectionTimeout
| BraviaNotFound
| BraviaTurnedOff
| BraviaOther.

Inductive exn : Type :=
| BraviaError (k : bravia_error) (msg : string)
| ConfigEntryAuthFailed
| UpdateFailed (msg : string)
| ValueError (msg : string)
| TypeError
| AttributeError
| OtherException (name : string).

(** [isinstance(e, BraviaError)] *)
Definition is_BraviaError (e : exn) : bool :=
  match e with
  | BraviaError _ _ => true
  | _ => false
  end.

(** [str(err)] as it is spliced into a message. *)
Definition exn_str (e : exn) : string :=
  match e with
  | BraviaError _ msg => msg
  | UpdateFailed msg => msg
  | ValueError msg => msg
  | _ => ""
  end.

(** What a call comes back with: [inl] a value, [inr] an exception. *)
Definition res (A : Type) : Type := (A + exn)%type.

(** ** The device client *)

(** The methods of [BraviaClient] the coordinator awaits, indexed by the
    type of what they return.  [send_command] returns the truth value of
    the response, [get_command_list] the keys of the dictionary. *)
Inductive call : Type -> Type :=
| connect_psk (psk : string) : call unit
| connect_pin (pin clientid nickname : string) : call unit
| get_power_status : call string
| get_system_info : call (list (string * string))
| get_volume_info : call VolumeInfo
| get_playing_info : call PlayingInfo
| get_external_status : call (list Item)
| get_app_list : call (list Item)
| get_content_list_all (kind : string) : call (list Item)
| set_active_app (uri : string) : call unit
| set_play_content (uri : string) : call unit
| turn_on : call unit
| turn_off : call unit
| volume_level_ (level : Z) : call unit
| volume_up : call unit
| volume_down : call unit
| volume_mute : call unit
| play : call unit
| pause : call unit
| stop : call unit
| channel_up : call unit
| channel_down : call unit
| next_track : call unit
| previous_track : call unit
| send_command (cmd : string) : call bool
| get_command_list : call (list string)
| reboot : call unit
| terminate_apps : call unit.

(** What the coordinator does to the outside, in the order it does it. *)
Inductive event : Type :=
| Called {T : Type} (c : call T)
| RefreshRequested.

(** The collaborators of the coordinator: the device client, which answers
    a call from the events so far, and the Python runtime. *)
Record Runtime : Type := mkRuntime {
  client : forall T : Type, list event -> call T -> res T;
  str_lower : string -> string;
  str_isnumeric : string -> bool;
  int_of_str : string -> option Z;
  (** wall-clock microseconds of an ISO-8601 string, [None] for [ValueError] *)
  fromisoformat : string -> option Z;
  (** wall-clock microseconds at the n-th reading of the clock *)
  now : nat -> Z
}.

Record World : Type := mkWorld {
  coord : Coordinator;
  log : list event;
  clock_reads : nat
}.

Fixpoint refresh_count (l : list event) : nat :=
  match l with
  | [] => 0%nat
  | RefreshRequested :: l' => S (refresh_count l')
  | Called _ :: l' => refresh_count l'
  end.

(** ** Methods as state and exception passing *)

Definition M (A : Type) : Type := World -> World * res A.

Definition ret {A} (a : A) : M A := fun w => (w, inl a).

Definition raise {A} (e : exn) : M A := fun w => (w, inr e).

Definition bind {A B} (m : M A) (k : A -> M B) : M B :=
  fun w =>
    match m w with
    | (w', inl a) => k a w'
    | (w', inr e) => (w', inr e)
    end.

Notation "x <- c1 ;; c2" := (bind c1 (fun x => c2))
  (at level 61, c1 at next level, right associativity).
Notation "c1 ;; c2" := (bind c1 (fun _ => c2))
  (at level 61, right associativity).

(** [try: m  except <clauses>]: [handler e] is the body of the first
    clause that matches [e], [None] when no clause does. *)
Definition try_except {A} (m : M A) (handler : exn -> option (M A)) : M A :=
  fun w =>
    match m w with
    | (w', inl a) => (w', inl a)
    | (w', inr e) =>
        match handler e with
        | Some h => h w'
        | None => (w', inr e)
        end
    end.

Definition self : M Coordinator := fun w => (w, inl (coord w)).

Definition assign (f : Coordinator -> Coordinator) : M unit :=
  fun w => (mkWorld (f (coord w)) (log w) (clock_reads w), inl tt).

(** [datetime.now()] *)
Definition datetime_now (rt : Runtime) : M Z :=
  fun w => (mkWorld (coord w) (log w) (S (clock_reads w)),
            inl (now rt (clock_reads w))).

(** [await self.client.<c>] *)
Definition await (rt : Runtime) {T} (c : call T) : M T :=
  fun w => (mkWorld (coord w) (log w ++ [Called c]) (clock_reads w),
            client rt T (log w) c).

(** [await self.async_request_refresh()]: the debounced refresh of
    [DataUpdateCoordinator] is asked for, not run. *)
Definition async_request_refresh : M unit :=
  fun w => (mkWorld (coord w) (log w ++ [RefreshRequested]) (clock_reads w),
            inl tt).

Definition pass : M unit := ret tt.

(** [int(s)] *)
Definition py_int (rt : Runtime) (s : string) : M Z :=
  match int_of_str rt s with
  | Some z => ret z
  | None => raise (ValueError ("invalid literal for int() with base 10: '" ++ s ++ "'"))
  end.

(** ** The coordinator *)

Section Coordinator.

Variable rt : Runtime.

(** [catch_braviatv_errors] *)
Definition catch_braviatv_errors (func : M unit) : M unit :=
  try_except func
    (fun err => if is_BraviaError err then Some pass else None) ;;
  async_request_refresh.

(** One turn of the loop of [_sources_extend]. *)
Definition sources_extend_item (source_type : string) (add_to_list : bool)
    (item : Item) (s : Coordinator) : Coordinator :=
  let title := get (i_title item) in
  let title :=
    if enable_user_labels s && truthy (get (i_label item))
    then get (i_label item) else title in
  let uri := get (i_uri item) in
  if negb (truthy title) || negb (truthy uri) then s
  else
    match title, uri with
    | Some title, Some uri =>
        let s := set_source_map
                   (dict_set (source_map s) uri (mkEntry item source_type)) s in
        if add_to_list && negb (mem title (source_list s))
        then set_source_list (source_list s ++ [title]) s
        else s
    | _, _ => s
    end.

Definition _sources_extend (sources : list Item) (source_type : string)
    (add_to_list : bool) (sort_by : option string) : M unit :=
  sources <-
    (if truthy sort_by then
       match sort_by with
       | Some k =>
           match sorted (fun d => get_or (item_field k d) (Some "")) sources with
           | Some l => ret l
           | None => raise TypeError
           end
       | None => ret sources
       end
     else ret sources) ;;
  assign (fun s =>
    fold_left (fun s item => sources_extend_item source_type add_to_list item s)
      sources s).

Definition async_update_sources : M unit :=
  assign (set_source_list []) ;;
  assign (set_source_map []) ;;
  inputs <- await rt get_external_status ;;
  _sources_extend inputs SourceType.INPUT true None ;;
  apps <- await rt get_app_list ;;
  _sources_extend apps SourceType.APP false (Some "title") ;;
  channels <- await rt (get_content_list_all "tv") ;;
  _sources_extend channels SourceType.CHANNEL false None.

Definition async_update_volume : M unit :=
  volume_info <- await rt get_volume_info ;;
  match get (v_volume volume_info) with
  | Some volume_level =>
      assign (set_volume_level (Some (finite (volume_level # 100)))) ;;
      assign (set_volume_muted (get_or (v_mute volume_info) (Some false))) ;;
      assign (set_volume_target (get (v_target volume_info)))
  | None => pass
  end.


Definition async_update_playing : M unit :=
  playing_info <- await rt get_playing_info ;;
  assign (set_media_title (get (p_title playing_info))) ;;
  assign (set_media_uri (get (p_uri playing_info))) ;;
  assign (set_media_duration (get (p_durationSec playing_info))) ;;
  assign (set_media_channel None) ;;
  assign (set_media_content_id None) ;;
  assign (set_media_content_type None) ;;
  assign (set_source None) ;;
  (if truthy (get (p_startDateTime playing_info)) then
     match get (p_startDateTime playing_info) with
     | Some start_datetime =>
         match fromisoformat rt start_datetime with
         | Some start_datetime =>
             current_datetime <- datetime_now rt ;;
             assign (set_media_position
                       (Some (total_seconds_int
                                (current_datetime - start_datetime)))) ;;
             updated_at <- datetime_now rt ;;
             assign (set_media_position_updated_at (Some updated_at))
         | None =>
             raise (ValueError ("Invalid isoformat string: '" ++ start_datetime ++ "'"))
         end
     | None => pass
     end
   else
     assign (set_media_position None) ;;
     assign (set_media_position_updated_at None)) ;;
  if playing_info_empty playing_info then
    assign (set_media_title (Some "Smart TV")) ;;
    assign (set_media_content_type (Some MediaType.APP))
  else
    s <- self ;;
    (if truthy (media_uri s)
     then assign (set_media_content_id (media_uri s)) else pass) ;;
    match media_uri s with
    | Some uri =>
        if truthy (media_uri s) && startswith uri "extInput" then
          let label :=
            if enable_user_labels s && dict_mem (source_map s) uri then
              match dict_get (source_map s) uri with
              | Some e => get (i_label (e_item e))
              | None => None
              end
            else None in
          let label :=
            if negb (truthy label) then get (p_label playing_info) else label in
          if truthy label then
            assign (set_source label) ;;
            assign (set_media_title label)
          else
            assign (set_source (get (p_title playing_info))) ;;
            assign (set_media_title (get (p_title playing_info)))
        else if truthy (media_uri s) && startswith uri "tv" then
          assign (set_media_content_id (get (p_dispNum playing_info))) ;;
          assign (set_media_title
                    (or_else (get (p_programTitle playing_info))
                             (get (p_dispNum playing_info)))) ;;
          assign (set_media_channel
                    (or_else (get (p_title playing_info))
                             (get (p_dispNum playing_info)))) ;;
          assign (set_media_content_type (Some MediaType.CHANNEL))
        else
          let label := get (p_label playing_info) in
          let label :=
            if enable_user_labels s && dict_mem (source_map s) uri then
              match dict_get (source_map s) uri with
              | Some e => get_or (i_label (e_item e)) label
              | None => label
              end
            else label in
          if truthy label then
            assign (set_source label) ;;
            assign (set_media_title label)
          else if truthy (get (p_title playing_info)) then
            assign (set_source (get (p_title playing_info))) ;;
            assign (set_media_title (get (p_title playing_info)))
          else pass
    | None =>
        (* [media_uri] is [None]: neither prefix test is reached and
           [None in self.source_map] is false *)
        let label := get (p_label playing_info) in
        if truthy label then
          assign (set_source label) ;;
          assign (set_media_title label)
        else if truthy (get (p_title playing_info)) then
          assign (set_source (get (p_title playing_info))) ;;
          assign (set_media_title (get (p_title playing_info)))
        else pass
    end.

(** The body of the [try] of [_async_update_data]. *)
Definition update_body : M unit :=
  s <- self ;;
  (if negb (connected s) then
     try_except
       ((if use_psk s then await rt (connect_psk (pin s))
         else await rt (connect_pin (pin s) (client_id s) (nickname s))) ;;
        assign (set_connected true))
       (fun err =>
          match err with
          | BraviaError BraviaAuthError _ => Some (raise ConfigEntryAuthFailed)
          | _ => None
          end)
   else pass) ;;
  power_status <- await rt get_power_status ;;
  assign (set_is_on (power_status =? "active")%string) ;;
  assign (set_skipped_updates 0) ;;
  s <- self ;;
  (match system_info s with
   | [] =>
       info <- await rt get_system_info ;;
       assign (set_system_info info)
   | _ => pass
   end) ;;
  s <- self ;;
  if negb (is_on s) then ret tt
  else
    (match source_map s with
     | [] => async_update_sources
     | _ => pass
     end) ;;
    async_update_volume ;;
    async_update_playing.

Definition _async_update_data : M unit :=
  try_except update_body
    (fun err =>
       match err with
       | BraviaError BraviaNotFound _ =>
           Some (s <- self ;;
                 if skipped_updates s <? 10 then
                   assign (set_connected false) ;;
                   assign (fun s => set_skipped_updates (skipped_updates s + 1) s) ;;
                   ret tt
                 else raise (UpdateFailed "Error communicating with device"))
       | BraviaError BraviaConnectionError _
       | BraviaError BraviaConnectionTimeout _
       | BraviaError BraviaTurnedOff _ =>
           Some (assign (set_is_on false) ;;
                 assign (set_connected false))
       | BraviaError _ _ =>
           Some (assign (set_is_on false) ;;
                 assign (set_connected false) ;;
                 raise (UpdateFailed
                          ("Error communicating with device: " ++ exn_str err)))
       | _ => None
       end).

Definition async_source_start (uri source_type : string) : M unit :=
  if (source_type =? SourceType.APP)%string
  then await rt (set_active_app uri)
  else await rt (set_play_content uri).

(** How the [for] loop of [async_source_find] is left: by a [return]
    from inside it, or at its end with the value of [coarse_uri].
    [labels] is [self.enable_user_labels], which nothing assigns after
    [__init__]. *)
Inductive loop_exit : Type :=
| Returned
| Finished (coarse_uri : option string).

Fixpoint source_find_loop (labels : bool) (query source_type : string)
    (is_numeric_search : bool) (items : list (string * Entry))
    (coarse_uri : option string) : M loop_exit :=
  match items with
  | [] => ret (Finished coarse_uri)
  | (uri, item) :: rest =>
      if (e_type item =? source_type)%string then
        if is_numeric_search then
          let num := get (i_dispNum (e_item item)) in
          match num with
          | Some n =>
              if truthy num then
                q <- py_int rt query ;;
                n <- py_int rt n ;;
                if q =? n then
                  async_source_start uri source_type ;; ret Returned
                else
                  source_find_loop labels query source_type is_numeric_search rest coarse_uri
              else
                source_find_loop labels query source_type is_numeric_search rest coarse_uri
          | None =>
              source_find_loop labels query source_type is_numeric_search rest coarse_uri
          end
        else
          let title := get (i_title (e_item item)) in
          let title :=
            if labels && truthy (get (i_label (e_item item)))
            then get (i_label (e_item item))
            else title in
          match title with
          | Some title =>
              if (str_lower rt query =? str_lower rt title)%string then
                async_source_start uri source_type ;; ret Returned
              else if contains (str_lower rt query) (str_lower rt title) then
                source_find_loop labels query source_type is_numeric_search rest (Some uri)
              else
                source_find_loop labels query source_type is_numeric_search rest coarse_uri
          | None => raise AttributeError
          end
      else
        source_find_loop labels query source_type is_numeric_search rest coarse_uri
  end.

Definition async_source_find (query source_type : string) : M unit :=
  if startswith_any query ["extInput:"; "tv:"; "com.sony.dtv."] then
    async_source_start query source_type
  else
    let is_numeric_search :=
      (source_type =? SourceType.CHANNEL)%string && str_isnumeric rt query in
    s <- self ;;
    r <- source_find_loop (enable_user_labels s) query source_type
           is_numeric_search (source_map s) None ;;
    match r with
    | Returned => ret tt
    | Finished coarse_uri =>
        match coarse_uri with
        | Some uri =>
            if truthy coarse_uri then async_source_start uri source_type
            else raise (ValueError ("Not found " ++ source_type ++ ": " ++ query))
        | None => raise (ValueError ("Not found " ++ source_type ++ ": " ++ query))
        end
    end.

Fixpoint for_each {A} (l : list A) (body : A -> M unit) : M unit :=
  match l with
  | [] => ret tt
  | x :: l' => body x ;; for_each l' body
  end.

(** [for _ in range(n)] *)
Fixpoint repeat_times (n : nat) (body : M unit) : M unit :=
  match n with
  | O => ret tt
  | S n' => body ;; repeat_times n' body
  end.

(** The command methods.  [f__wrapped] is the function as it is written
  under the decorator (Python's [f.__wrapped__]), [f] the method the
  class ends up with. *)

Definition async_turn_on__wrapped : M unit := await rt turn_on.

Definition async_turn_off__wrapped : M unit := await rt turn_off.

Definition async_set_volume_level__wrapped (volume : float) : M unit :=
  match volume with
  | finite x =>
      let product := round64 (round64 x * 100) in
      (* the product of a large float is infinite *)
      if is_inf product then raise (OtherException "OverflowError")
      else await rt (volume_level_ (round product))
  | infinity => raise (OtherException "OverflowError")
  | nan => raise (ValueError "cannot convert float NaN to integer")
  end.

Definition async_volume_up__wrapped : M unit := await rt volume_up.

Definition async_volume_down__wrapped : M unit := await rt volume_down.

Definition async_volume_mute__wrapped (mute : bool) : M unit := await rt volume_mute.

Definition async_media_play__wrapped : M unit := await rt play.

Definition async_media_pause__wrapped : M unit := await rt pause.

Definition async_media_stop__wrapped : M unit := await rt stop.

Definition async_media_next_track__wrapped : M unit :=
  s <- self ;;
  match media_content_type s with
  | Some t =>
      if (t =? MediaType.CHANNEL)%string then await rt channel_up
      else await rt next_track
  | None => await rt next_track
  end.

Definition async_media_previous_track__wrapped : M unit :=
  s <- self ;;
  match media_content_type s with
  | Some t =>
      if (t =? MediaType.CHANNEL)%string then await rt channel_down
      else await rt previous_track
  | None => await rt previous_track
  end.

Definition async_play_media__wrapped (media_type media_id : string) : M unit :=
  if negb (mem media_type [MediaType.APP; MediaType.CHANNEL]) then
    raise (ValueError ("Invalid media type: " ++ media_type))
  else async_source_find media_id media_type.

Definition async_select_source__wrapped (source : string) : M unit :=
  async_source_find source SourceType.INPUT.

Definition async_send_command__wrapped (command : list string) (repeats : Z) : M unit :=
  repeat_times (Z.to_nat repeats)
    (for_each command (fun cmd =>
       response <- await rt (send_command cmd) ;;
       if negb response then
         commands <- await rt get_command_list ;;
         pass
       else pass)).

Definition async_reboot_device__wrapped : M unit := await rt reboot.

Definition async_terminate_apps__wrapped : M unit := await rt terminate_apps.

Definition async_turn_on : M unit :=
  catch_braviatv_errors async_turn_on__wrapped.

Definition async_turn_off : M unit :=
  catch_braviatv_errors async_turn_off__wrapped.

Definition async_set_volume_level (volume : float) : M unit :=
  catch_braviatv_errors (async_set_volume_level__wrapped volume).

Definition async_volume_up : M unit :=
  catch_braviatv_errors async_volume_up__wrapped.

Definition async_volume_down : M unit :=
  catch_braviatv_errors async_volume_down__wrapped.

Definition async_volume_mute (mute : bool) : M unit :=
  catch_braviatv_errors (async_volume_mute__wrapped mute).

Definition async_media_play : M unit :=
  catch_braviatv_errors async_media_play__wrapped.

Definition async_media_pause : M unit :=
  catch_braviatv_errors async_media_pause__wrapped.

Definition async_media_stop : M unit :=
  catch_braviatv_errors async_media_stop__wrapped.

Definition async_media_next_track : M unit :=
  catch_braviatv_errors async_media_next_track__wrapped.

Definition async_media_previous_track : M unit :=
  catch_braviatv_errors async_media_previous_track__wrapped.

Definition async_play_media (media_type media_id : string) : M unit :=
  catch_braviatv_errors (async_play_media__wrapped media_type media_id).

Definition async_select_source (source : string) : M unit :=
  catch_braviatv_errors (async_select_source__wrapped source).

Definition async_send_command (command : list string) (repeats : Z) : M unit :=
  catch_braviatv_errors (async_send_command__wrapped command repeats).

Definition async_reboot_device : M unit :=
  catch_braviatv_errors async_reboot_device__wrapped.

Definition async_terminate_apps : M unit :=
  catch_braviatv_errors async_terminate_apps__wrapped.

(** The decorated methods with their arguments. *)
Inductive command : Type :=
| TurnOn
| TurnOff
| SetVolumeLevel (volume : float)
| VolumeUp
| VolumeDown
| VolumeMute (mute : bool)
| MediaPlay
| MediaPause
| MediaStop
| MediaNextTrack
| MediaPreviousTrack
| PlayMedia (media_type media_id : string)
| SelectSource (source : string)
| SendCommand (command : list string) (repeats : Z)
| RebootDevice
| TerminateApps.

Definition wrapped_of (c : command) : M unit :=
  match c with
  | TurnOn => async_turn_on__wrapped
  | TurnOff => async_turn_off__wrapped
  | SetVolumeLevel volume => async_set_volume_level__wrapped volume
  | VolumeUp => async_volume_up__wrapped
  | VolumeDown => async_volume_down__wrapped
  | VolumeMute mute => async_volume_mute__wrapped mute
  | MediaPlay => async_media_play__wrapped
  | MediaPause => async_media_pause__wrapped
  | MediaStop => async_media_stop__wrapped
  | MediaNextTrack => async_media_next_track__wrapped
  | MediaPreviousTrack => async_media_previous_track__wrapped
  | PlayMedia media_type media_id => async_play_media__wrapped media_type media_id
  | SelectSource source => async_select_source__wrapped source
  | SendCommand command repeats => async_send_command__wrapped command repeats
  | RebootDevice => async_reboot_device__wrapped
  | TerminateApps => async_terminate_apps__wrapped
  end.

Definition method_of (c : command) : M unit :=
  match c with
  | TurnOn => async_turn_on
  | TurnOff => async_turn_off
  | SetVolumeLevel volume => async_set_volume_level volume
  | VolumeUp => async_volume_up
  | VolumeDown => async_volume_down
  | VolumeMute mute => async_volume_mute mute
  | MediaPlay => async_media_play
  | MediaPause => async_media_pause
  | MediaStop => async_media_stop
  | MediaNextTrack => async_media_next_track
  | MediaPreviousTrack => async_media_previous_track
  | PlayMedia media_type media_id => async_play_media media_type media_id
  | SelectSource source => async_select_source source
  | SendCommand command repeats => async_send_command command repeats
  | RebootDevice => async_reboot_device
  | TerminateApps => async_terminate_apps
  end.

End Coordinator.

(** ** A concrete runtime

    Used to run the coordinator on explicit inputs: ASCII case folding and
    decimal digits, on which Python agrees, and a client that answers every
    call of one kind in the same way.  No payload run below carries a start
    timestamp, so the timestamp parser and the clock are never consulted;
    they are a parser that knows no string and a clock that stands still. *)

Module Concrete.

Definition lower_ascii (c : ascii) : ascii :=
  let n := nat_of_ascii c in
  if ((65 <=? n) && (n <=? 90))%nat then ascii_of_nat (n + 32) else c.

Fixpoint lower (s : string) : string :=
  match s with
  | EmptyString => EmptyString
  | String c s' => String (lower_ascii c) (lower s')
  end.

Definition is_digit (c : ascii) : bool :=
  let n := nat_of_ascii c in ((48 <=? n) && (n <=? 57))%nat.

Fixpoint all_digits (s : string) : bool :=
  match s with
  | EmptyString => true
  | String c s' => is_digit c && all_digits s'
  end.

Definition isnumeric (s : string) : bool :=
  negb (s =? "")%string && all_digits s.

Fixpoint digits_value (s : string) (acc : Z) : Z :=
  match s with
  | EmptyString => acc
  | String c s' => digits_value s' (10 * acc + Z.of_nat (nat_of_ascii c - 48))
  end.

Definition int (s : string) : option Z :=
  if isnumeric s then Some (digits_value s 0) else None.

(** The answers of a device that does not change. *)
Record Script : Type := mkScript {
  on_command : res unit;
  on_power_status : res string;
  on_system_info : res (list (string * string));
  on_volume_info : res VolumeInfo;
  on_playing_info : res PlayingInfo;
  on_external_status : res (list Item);
  on_app_list : res (list Item);
  on_content_list : res (list Item);
  on_send_command : res bool;
  on_command_list : res (list string)
}.

Definition scripted (sc : Script) (T : Type) (history : list event)
    (c : call T) : res T :=
  match c in call T return res T with
  | get_power_status => on_power_status sc
  | get_system_info => on_system_info sc
  | get_volume_info => on_volume_info sc
  | get_playing_info => on_playing_info sc
  | get_external_status => on_external_status sc
  | get_app_list => on_app_list sc
  | get_content_list_all _ => on_content_list sc
  | send_command _ => on_send_command sc
  | get_command_list => on_command_list sc
  | _ => on_command sc
  end.

Definition runtime (sc : Script) : Runtime :=
  mkRuntime (scripted sc) lower isnumeric int (fun _ => None) (fun _ => 0).

Definition no_volume : VolumeInfo := mkVolumeInfo Missing Missing Missing.

Definition no_playing : PlayingInfo :=
  mkPlayingInfo Missing Missing Missing Missing Missing Missing Missing [].

(** A device that is on, plays nothing and has no sources. *)
Definition idle : Script :=
  mkScript (inl tt) (inl "active") (inl [("model", "tv")]) (inl no_volume)
    (inl no_playing) (inl []) (inl []) (inl []) (inl true) (inl []).

Definition fresh (labels : bool) : World :=
  mkWorld (init "0000" false "client" "nick" labels) [] 0.

End Concrete.

(** ** Notions used to state the properties *)

(** The display title of the spec: the label when user labels are enabled
    and the label is non-empty, the title otherwise. *)
Definition display_title (labels : bool) (it : Item) : option string :=
  if labels && truthy (get (i_label it)) then get (i_label it)
  else get (i_title it).

(** The start timestamp of a payload is absent, empty or one that
    [datetime.fromisoformat] accepts. *)
Definition timestamp_ok (rt : Runtime) (p : PlayingInfo) : bool :=
  match get (p_startDateTime p) with
  | Some s => negb (truthy (Some s)) || negb (is_none (fromisoformat rt s))
  | None => true
  end.

(** The attributes [async_update_playing] resets before it reads the
    payload, in the order of the assignments. *)
Definition playing_reset (p : PlayingInfo) (s : Coordinator) : Coordinator :=
  set_source None
    (set_media_content_type None
       (set_media_content_id None
          (set_media_channel None
             (set_media_duration (get (p_durationSec p))
                (set_media_uri (get (p_uri p))
                   (set_media_title (get (p_title p)) s)))))).

(** [m] keeps [P]: from a world where [P] holds it ends, returning or
    raising, in a world where [P] holds. *)
Definition stable {A} (P : World -> Prop) (m : M A) : Prop :=
  forall w, P w -> P (fst (m w)).

(** A property of the world that depends on [skipped_updates] only. *)
Definition on_skipped (Q : Z -> Prop) (w : World) : Prop :=
  Q (skipped_updates (coord w)).

(** [P] does not depend on the client calls in the log. *)
Definition call_invariant (P : World -> Prop) : Prop :=
  forall (T : Type) (c : call T) (w : World),
    P w -> P (mkWorld (coord w) (log w ++ [Called c]) (clock_reads w)).

(** *** The resolver, as the spec words it *)

(** The query is a device content identifier. *)
Definition is_uri (query : string) : bool :=
  startswith_any query ["extInput:"; "tv:"; "com.sony.dtv."].

(** The query is matched against display numbers, not titles. *)
Definition numeric_search (rt : Runtime) (query kind : string) : bool :=
  (kind =? SourceType.CHANNEL)%string && str_isnumeric rt query.

(** The entry is of the kind asked for and its display title equals the
    query, case ignored. *)
Definition exact_match (rt : Runtime) (labels : bool) (query kind : string)
    (ue : string * Entry) : bool :=
  (e_type (snd ue) =? kind)%string &&
  match display_title labels (e_item (snd ue)) with
  | Some t => (str_lower rt query =? str_lower rt t)%string
  | None => false
  end.

(** The entry is of the kind asked for and its display title contains the
    query, case ignored. *)
Definition coarse_match (rt : Runtime) (labels : bool) (query kind : string)
    (ue : string * Entry) : bool :=
  (e_type (snd ue) =? kind)%string &&
  match display_title labels (e_item (snd ue)) with
  | Some t => contains (str_lower rt query) (str_lower rt t)
  | None => false
  end.

(** The last element of a list that satisfies [f]; [List.find] gives the
    first. *)
Fixpoint find_last {A} (f : A -> bool) (l : list A) : option A :=
  match l with
  | [] => None
  | x :: l' =>
      match find_last f l' with
      | Some y => Some y
      | None => if f x then Some x else None
      end
  end.

(** Every entry of the catalog has a non-empty uri and a non-empty display
    title, as [_sources_extend] leaves it. *)
Definition catalog_ok (labels : bool) (sm : dict Entry) : bool :=
  forallb (fun ue => truthy (Some (fst ue)) &&
                     truthy (display_title labels (e_item (snd ue)))) sm.

(** *** The catalog, as the spec words it *)

(** An item the builder keeps: it has a display title and a uri. *)
Definition valid_item (labels : bool) (it : Item) : bool :=
  truthy (display_title labels it) && truthy (get (i_uri it)).


(** [l] appended to [seen], leaving out what is already there. *)
Fixpoint distinct_from (seen l : list string) : list string :=
  match l with
  | [] => seen
  | t :: l' => distinct_from (if mem t seen then seen else seen ++ [t]) l'
  end.

(** The loop of [_sources_extend] on a coordinator. *)
Definition extended (kind : string) (add_to_list : bool) (items : list Item)
    (s : Coordinator) : Coordinator :=
  fold_left (fun s item => sources_extend_item kind add_to_list item s) items s.


(** The outcome is a return or a device-API error. *)
Definition ok_or_device_error {A} (r : res A) : Prop :=
  match r with
  | inl _ => True
  | inr e => is_BraviaError e = true
  end.

(** Inputs on which the properties are run. *)
Module Sample.
Import Concrete.

Definition news_channel : PlayingInfo :=
  mkPlayingInfo (Val "NewsCh") (Val "tv:dvbt") Missing (Val "5")
    (Val "Evening News") Missing Missing [].

Definition tv_script : Script :=
  mkScript (inl tt) (inl "active") (inl [("model", "tv")])
    (inl (mkVolumeInfo (Val 37) Missing (Val "speaker")))
    (inl news_channel) (inl []) (inl []) (inl []) (inl true) (inl []).

(** The coordinator after a cycle that found a channel playing. *)
Definition watching_tv : World :=
  Eval vm_compute in
    fst (_async_update_data (runtime tv_script) (fresh true)).

Definition input (title uri : string) : Item :=
  mkItem (Val title) Missing (Val uri) Missing.

Definition newsroom_script : Script :=
  mkScript (inl tt) (inl "active") (inl [("model", "tv")]) (inl no_volume)
    (inl no_playing)
    (inl [input "Newsroom Live" "extInput:hdmi?port=1";
          input "Newsroom" "extInput:hdmi?port=2";
          input "Comedy" "extInput:hdmi?port=3";
          input "News at Ten" "extInput:hdmi?port=4"])
    (inl [])
    (inl [mkItem (Val "5") Missing (Val "tv:dvbt?trip=1.2.3") (Val "7")])
    (inl true) (inl []).

(** The coordinator after its first cycle against that device. *)
Definition newsroom : World :=
  Eval vm_compute in
    fst (_async_update_data (runtime newsroom_script) (fresh true)).

(** Two inputs share the label "Game Console". *)
Definition console_script : Script :=
  mkScript (inl tt) (inl "active") (inl [("model", "tv")]) (inl no_volume)
    (inl (mkPlayingInfo Missing (Val "extInput:hdmi?port=1") Missing Missing
            Missing Missing Missing []))
    (inl [mkItem (Val "HDMI 1") (Val "Game Console")
            (Val "extInput:hdmi?port=1") Missing;
          mkItem (Val "HDMI 2") (Val "") (Val "extInput:hdmi?port=2") Missing;
          mkItem (Val "HDMI 3") (Val "Game Console")
            (Val "extInput:hdmi?port=3") Missing])
    (inl [input "Zeta" "com.sony.dtv.zeta"; input "Alpha" "com.sony.dtv.alpha"])
    (inl [mkItem (Val "NewsCh") Missing (Val "tv:dvbt?trip=1.2.3") (Val "5")])
    (inl true) (inl []).

Definition console : World :=
  Eval vm_compute in
    fst (_async_update_data (runtime console_script) (fresh true)).

(** The channel list gives the playing channel a label. *)
Definition labelled_channel_script : Script :=
  mkScript (inl tt) (inl "active") (inl [("model", "tv")]) (inl no_volume)
    (inl news_channel) (inl []) (inl [])
    (inl [mkItem (Val "NewsCh") (Val "My News") (Val "tv:dvbt") (Val "5")])
    (inl true) (inl []).

Definition labelled_channel : World :=
  Eval vm_compute in
    fst (_async_update_data (runtime labelled_channel_script) (fresh true)).

(** A device that refuses every command. *)
Definition refusing : Script :=
  mkScript (inr (BraviaError BraviaOther "refused")) (inl "active")
    (inl [("model", "tv")]) (inl no_volume) (inl no_playing)
    (inl []) (inl []) (inl []) (inl true) (inl []).

(** A device whose API service is reloading. *)
Definition reloading : Script :=
  mkScript (inr (BraviaError BraviaNotFound "404"))
    (inr (BraviaError BraviaNotFound "404"))
    (inr (BraviaError BraviaNotFound "404"))
    (inr (BraviaError BraviaNotFound "404"))
    (inr (BraviaError BraviaNotFound "404"))
    (inr (BraviaError BraviaNotFound "404"))
    (inr (BraviaError BraviaNotFound "404"))
    (inr (BraviaError BraviaNotFound "404"))
    (inr (BraviaError BraviaNotFound "404"))
    (inr (BraviaError BraviaNotFound "404")).

(** A coordinator that has already skipped [n] updates. *)
Definition skipped (n : Z) : World :=
  mkWorld (set_skipped_updates n (coord watching_tv)) (log watching_tv) 0.

End Sample.

(** ** Notions for the further properties *)

(** The [connect] call the coordinator makes with its configuration. *)
Definition connect_call (s : Coordinator) : call unit :=
  if use_psk s then connect_psk (pin s)
  else connect_pin (pin s) (client_id s) (nickname s).

(** The event is a connect call or a query; no command, no refresh
    request. *)
Definition is_query (ev : event) : bool :=
  match ev with
  | Called c =>
      match c with
      | connect_psk _ | connect_pin _ _ _ | get_power_status | get_system_info
      | get_volume_info | get_playing_info | get_external_status
      | get_app_list | get_content_list_all _ => true
      | _ => false
      end
  | RefreshRequested => false
  end.

(** The event is one of the three queries of a catalog build. *)
Definition is_catalog_query (ev : event) : bool :=
  match ev with
  | Called c =>
      match c with
      | get_external_status | get_app_list | get_content_list_all _ => true
      | _ => false
      end
  | RefreshRequested => false
  end.

Definition is_system_info_query (ev : event) : bool :=
  match ev with
  | Called c =>
      match c with
      | get_system_info => true
      | _ => false
      end
  | RefreshRequested => false
  end.

(** The log of [w] is [log0] followed by events that all satisfy [ok]. *)
Definition appended (ok : event -> bool) (log0 : list event) (w : World) : Prop :=
  exists l, log w = (log0 ++ l)%list /\ forallb ok l = true.

(** The remote codes sent, in order. *)
Fixpoint sent_codes (l : list event) : list string :=
  match l with
  | [] => []
  | Called c :: l' =>
      match c with
      | send_command cmd => cmd :: sent_codes l'
      | _ => sent_codes l'
      end
  | RefreshRequested :: l' => sent_codes l'
  end.

(** The call [async_source_start] makes for a uri of a kind. *)
Definition dispatch_call (kind uri : string) : event :=
  if (kind =? SourceType.APP)%string then Called (set_active_app uri)
  else Called (set_play_content uri).

(** The entry is of the kind asked for and its display number is the
    integer [q]. *)
Definition numeric_match (rt : Runtime) (q : Z) (kind : string)
    (ue : string * Entry) : bool :=
  (e_type (snd ue) =? kind)%string &&
  match get (i_dispNum (e_item (snd ue))) with
  | Some num =>
      truthy (Some num) &&
      match int_of_str rt num with
      | Some n => q =? n
      | None => false
      end
  | None => false
  end.

(** Every non-empty display number of the kind can be read as an
    integer. *)
Definition display_numbers_ok (rt : Runtime) (kind : string) (sm : dict Entry)
    : bool :=
  forallb (fun ue =>
             negb (e_type (snd ue) =? kind)%string ||
             match get (i_dispNum (e_item (snd ue))) with
             | Some num =>
                 negb (truthy (Some num)) || negb (is_none (int_of_str rt num))
             | None => true
             end) sm.

(** An entry as [_sources_extend] stores it: keyed by the uri of its item,
    with a display title, of one of the three kinds. *)
Definition entry_wf (labels : bool) (ue : string * Entry) : bool :=
  truthy (Some (fst ue)) &&
  truthy (display_title labels (e_item (snd ue))) &&
  match get (i_uri (e_item (snd ue))) with
  | Some u => (u =? fst ue)%string
  | None => false
  end &&
  mem (e_type (snd ue)) [SourceType.INPUT; SourceType.APP; SourceType.CHANNEL].

Definition catalog_wf (labels : bool) (sm : dict Entry) : bool :=
  forallb (entry_wf labels) sm.

(** The catalog of the coordinator is well formed. *)
Definition catalog_wf_at (w : World) : Prop :=
  catalog_wf (enable_user_labels (coord w)) (source_map (coord w)) = true.

(** The uris of the items the builder keeps, in order. *)
Definition kept_uris (labels : bool) (items : list Item) : list string :=
  flat_map (fun it =>
              if valid_item labels it then
                match get (i_uri it) with
                | Some u => [u]
                | None => []
                end
              else []) items.

(** The item is kept by the builder under the uri [u]. *)
Definition kept_under (labels : bool) (u : string) (it : Item) : bool :=
  valid_item labels it &&
  match get (i_uri it) with
  | Some u' => (u' =? u)%string
  | None => false
  end.

(** The payload's uri starts with "tv". *)
Definition plays_tv (p : PlayingInfo) : bool :=
  match get (p_uri p) with
  | Some u => startswith u "tv"
  | None => false
  end.

(** The payload's uri starts with "extInput". *)
Definition plays_input (p : PlayingInfo) : bool :=
  match get (p_uri p) with
  | Some u => startswith u "extInput"
  | None => false
  end.

(** The label of the catalog entry of the playing uri, when user labels
    are enabled and the uri is in the catalog. *)
Definition catalog_label (s : Coordinator) (p : PlayingInfo)
    : option (field string) :=
  match get (p_uri p) with
  | Some u =>
      if enable_user_labels s then
        match dict_get (source_map s) u with
        | Some e => Some (i_label (e_item e))
        | None => None
        end
      else None
  | None => None
  end.

Module Sample2.
Import Concrete.

(** A device that knows no remote code. *)
Definition no_codes : Script :=
  mkScript (inl tt) (inl "active") (inl [("model", "tv")]) (inl no_volume)
    (inl no_playing) (inl []) (inl []) (inl []) (inl false)
    (inl ["PowerOff"; "VolumeUp"]).

(** A device that rejects the credentials. *)
Definition rejecting : Script :=
  mkScript (inr (BraviaError BraviaAuthError "401")) (inl "active")
    (inl [("model", "tv")]) (inl no_volume) (inl no_playing)
    (inl []) (inl []) (inl []) (inl true) (inl []).

(** A device in standby. *)
Definition standby : Script :=
  mkScript (inl tt) (inl "standby") (inl [("model", "tv")]) (inl no_volume)
    (inl no_playing) (inl []) (inl []) (inl []) (inl true) (inl []).

(** A device that has gone off the network. *)
Definition unreachable : Script :=
  mkScript (inr (BraviaError BraviaConnectionError "down"))
    (inr (BraviaError BraviaConnectionError "down"))
    (inr (BraviaError BraviaConnectionError "down"))
    (inr (BraviaError BraviaConnectionError "down"))
    (inr (BraviaError BraviaConnectionError "down"))
    (inr (BraviaError BraviaConnectionError "down"))
    (inr (BraviaError BraviaConnectionError "down"))
    (inr (BraviaError BraviaConnectionError "down"))
    (inr (BraviaError BraviaConnectionError "down"))
    (inr (BraviaError BraviaConnectionError "down")).

End Sample2.

(** * Properties *)

Local Open Scope list_scope.

Ltac run :=
  unfold bind, assign, self, await, ret, pass, raise, datetime_now,
    async_request_refresh, try_except;
  cbn [fst snd coord log clock_reads].

(** ** Prefixes *)

Lemma tv_not_extInput (u : string) :
  startswith u "tv" = true -> startswith u "extInput" = false.
Proof.
  destruct u as [|c u]; cbn; [discriminate|].
  destruct (Ascii.eqb_spec c "t") as [->|]; [reflexivity|discriminate].
Qed.

Lemma truthy_startswith (u p : string) :
  p <> "" -> startswith u p = true -> truthy (Some u) = true.
Proof.
  destruct p; [congruence|]. destruct u; [discriminate|reflexivity].
Qed.

Lemma uri_not_empty (p : PlayingInfo) (u : string) :
  get (p_uri p) = Some u -> playing_info_empty p = false.
Proof.
  unfold playing_info_empty. destruct (p_uri p); try discriminate.
  intros _. cbn. rewrite !orb_true_r. reflexivity.
Qed.

(** ** The mute command *)

(** C9: [async_volume_mute] does not look at its argument: whichever
    boolean is passed, the method is the one call [volume_mute()] under the
    decorator, that call is the next event, and the outcome is the same. *)
Theorem volume_mute_ignores_argument :
  forall (rt : Runtime) (mute1 mute2 : bool) (w : World),
    async_volume_mute rt mute1 w = async_volume_mute rt mute2 w /\
    async_volume_mute__wrapped rt mute1 = await rt volume_mute /\
    exists rest,
      log (fst (async_volume_mute rt mute1 w))
        = log w ++ Called volume_mute :: rest.
Proof.
  intros rt mute1 mute2 w. split; [reflexivity|]. split; [reflexivity|].
  unfold async_volume_mute, catch_braviatv_errors, async_volume_mute__wrapped.
  run. destruct (client rt unit (log w) volume_mute) as [[]|e]; cbn.
  - exists [RefreshRequested]. rewrite <- app_assoc. reflexivity.
  - destruct (is_BraviaError e); cbn.
    + exists [RefreshRequested]. rewrite <- app_assoc. reflexivity.
    + exists []. reflexivity.
Qed.

(** ** Volume refresh *)

(** The float [v / 100] lies between 0 and 1 for [v] from 0 to 100. *)
Lemma percent_bounds (v : Z) :
  0 <= v <= 100 ->
  (0 <= round64 (v # 100))%Q /\ (round64 (v # 100) <= 1)%Q.
Proof.
  intros Hv.
  assert (Hall : forallb
                   (fun n =>
                      Qle_bool 0 (round64 (Z.of_nat n # 100))
                      && Qle_bool (round64 (Z.of_nat n # 100)) 1)
                   (seq 0 101) = true) by (vm_compute; reflexivity).
  rewrite forallb_forall in Hall.
  assert (Hin : In (Z.to_nat v) (seq 0 101)) by (apply in_seq; lia).
  apply Hall, andb_prop in Hin. rewrite Z2Nat.id in Hin by lia.
  destruct Hin as [Hlow Hhigh].
  split; apply Qle_bool_iff; assumption.
Qed.

(** C8: with no volume value in the payload (key missing or null) the
    coordinator is left as it was; with a volume value [v] the level
    becomes the float [v / 100], which lies between 0 and 1 when [v] lies
    between 0 and 100, the mute attribute becomes the payload's mute
    field, [False] when the key is missing, and the target becomes the
    payload's target field, unset when there is none; nothing else
    changes. *)
Theorem volume_refresh :
  forall (rt : Runtime) (w : World) (info : VolumeInfo),
    client rt _ (log w) get_volume_info = inl info ->
    exists s',
      async_update_volume rt w
        = (mkWorld s' (log w ++ [Called get_volume_info]) (clock_reads w), inl tt) /\
      (v_volume info = Missing \/ v_volume info = Null -> s' = coord w) /\
      (forall v, v_volume info = Val v ->
         volume_level s' = Some (finite (v # 100)) /\
         (0 <= v <= 100 ->
          (0 <= round64 (v # 100))%Q /\ (round64 (v # 100) <= 1)%Q) /\
         (v_mute info = Missing -> volume_muted s' = Some false) /\
         (forall b, v_mute info = Val b -> volume_muted s' = Some b) /\
         (v_mute info = Null -> volume_muted s' = None) /\
         (forall t, v_target info = Val t -> volume_target s' = Some t) /\
         (v_target info = Missing \/ v_target info = Null ->
          volume_target s' = None) /\
         s' = set_volume_target (volume_target s')
                (set_volume_muted (volume_muted s')
                   (set_volume_level (volume_level s') (coord w)))).
Proof.
  intros rt w info Hc. unfold async_update_volume. run. rewrite Hc.
  destruct (v_volume info) as [| |v] eqn:Hv; cbn.
  - eexists. split; [reflexivity|]. split; [destruct w; reflexivity|].
    discriminate.
  - eexists. split; [reflexivity|]. split; [destruct w; reflexivity|].
    discriminate.
  - eexists. split; [reflexivity|]. split; [intros [H|H]; discriminate H|].
    intros v' [= <-]. cbn.
    split; [reflexivity|].
    split; [apply percent_bounds|].
    split; [intros ->; reflexivity|].
    split; [intros b ->; reflexivity|].
    split; [intros ->; reflexivity|].
    split; [intros t ->; reflexivity|].
    split; [intros [-> | ->]; reflexivity|].
    reflexivity.
Qed.

Lemma volume_refresh_witness :
  let device info :=
    Concrete.runtime
      (Concrete.mkScript (inl tt) (inl "active") (inl []) (inl info)
         (inl Concrete.no_playing) (inl []) (inl []) (inl []) (inl true)
         (inl []))%string in
  let after info :=
    coord (fst (async_update_volume (device info) Sample.watching_tv)) in
  let muted := mkVolumeInfo (Val 25) (Val true) (Val "headphone"%string) in
  let plain := mkVolumeInfo (Val 100) Missing Missing in
  let silent := mkVolumeInfo Missing (Val true) (Val "headphone"%string) in
  volume_level (coord Sample.watching_tv) = Some (finite (37 # 100)) /\
  (volume_level (after muted) = Some (finite (25 # 100)) /\
   (round64 (25 # 100) == 1 # 4)%Q /\
   volume_muted (after muted) = Some true /\
   volume_target (after muted) = Some "headphone"%string) /\
  (volume_level (after plain) = Some (finite (100 # 100)) /\
   (round64 (100 # 100) == 1)%Q /\
   volume_muted (after plain) = Some false /\
   volume_target (after plain) = None) /\
  after silent = coord Sample.watching_tv.
Proof.
  intros device after muted plain silent. subst after.
  split; [reflexivity|].
  destruct (volume_refresh (device muted) Sample.watching_tv muted eq_refl)
    as (s1 & Hrun1 & _ & Hset1).
  destruct (volume_refresh (device plain) Sample.watching_tv plain eq_refl)
    as (s2 & Hrun2 & _ & Hset2).
  destruct (volume_refresh (device silent) Sample.watching_tv silent eq_refl)
    as (s3 & Hrun3 & Hkeep & _).
  cbv beta. rewrite Hrun1, Hrun2, Hrun3. cbn [fst coord].
  destruct (Hset1 25 eq_refl)
    as (Hlevel1 & _ & _ & Hmute1 & _ & Htarget1 & _).
  destruct (Hset2 100 eq_refl)
    as (Hlevel2 & _ & Hmute2 & _ & _ & _ & Htarget2 & _).
  split; [|split].
  - split; [exact Hlevel1|]. split; [vm_compute; reflexivity|].
    split; [exact (Hmute1 true eq_refl)|].
    exact (Htarget1 "headphone"%string eq_refl).
  - split; [exact Hlevel2|]. split; [vm_compute; reflexivity|].
    split; [exact (Hmute2 eq_refl)|].
    exact (Htarget2 (or_introl eq_refl)).
  - exact (Hkeep (or_introl eq_refl)).
Defined.

(** ** Playback state *)

(** C6: on an empty payload the deriver, whatever the attributes held
    before, first clears title, uri, duration, channel, content id, content
    type, source and position, then sets the title to "Smart TV" and the
    content type to APP, and returns; no branch on the uri is entered. *)
Theorem playing_empty_payload :
  forall (rt : Runtime) (w : World) (p : PlayingInfo),
    client rt _ (log w) get_playing_info = inl p ->
    playing_info_empty p = true ->
    exists s',
      async_update_playing rt w
        = (mkWorld s' (log w ++ [Called get_playing_info]) (clock_reads w), inl tt) /\
      s' = set_media_content_type (Some MediaType.APP)
             (set_media_title (Some "Smart TV"%string)
                (set_media_position_updated_at None
                   (set_media_position None (playing_reset p (coord w))))) /\
      media_channel s' = None /\
      media_content_id s' = None /\
      source s' = None /\
      media_uri s' = None /\
      media_title s' = Some "Smart TV"%string /\
      media_content_type s' = Some MediaType.APP.
Proof.
  intros rt w p Hc He. unfold async_update_playing.
  unfold bind at 1. unfold await at 1. rewrite Hc.
  assert (Hs : p_startDateTime p = Missing /\ p_uri p = Missing).
  { unfold playing_info_empty in He.
    destruct (p_title p), (p_uri p), (p_label p), (p_dispNum p),
      (p_programTitle p), (p_startDateTime p); try discriminate; auto. }
  destruct Hs as [Hs Hu]. run. rewrite Hs. cbn. rewrite He. cbn.
  eexists. split; [reflexivity|]. unfold playing_reset. rewrite Hu.
  repeat split.
Qed.

Lemma playing_empty_payload_witness :
  media_channel (coord Sample.watching_tv) = Some "NewsCh"%string /\
  media_content_id (coord Sample.watching_tv) = Some "5"%string /\
  client (Concrete.runtime Concrete.idle) _ (log Sample.watching_tv)
    get_playing_info = inl Concrete.no_playing /\
  playing_info_empty Concrete.no_playing = true /\
  exists s',
    fst (async_update_playing (Concrete.runtime Concrete.idle) Sample.watching_tv)
      = mkWorld s' (log Sample.watching_tv ++ [Called get_playing_info]) 0 /\
    media_channel s' = None /\
    media_content_id s' = None /\
    media_title s' = Some "Smart TV"%string /\
    media_content_type s' = Some "app"%string.
Proof.
  split; [reflexivity|]. split; [reflexivity|].
  split; [reflexivity|]. split; [reflexivity|].
  destruct (playing_empty_payload (Concrete.runtime Concrete.idle)
              Sample.watching_tv Concrete.no_playing eq_refl eq_refl)
    as (s' & Hrun & _ & Hch & Hid & _ & _ & Ht & Hty).
  exists s'. rewrite Hrun. repeat split; assumption.
Defined.

(** C7, as the code has it: for a payload whose uri starts with "tv"
    and whose start timestamp, which the deriver parses before it looks
    at the uri, is absent, empty or accepted by [datetime.fromisoformat],
    the content id becomes the display number, the title the program
    title, or the display number when the program title is absent or
    empty, the channel the payload title, or the display number when the
    payload title is absent or empty, and the content type CHANNEL, with
    no source.  The witness runs the payload uri "tv:dvbt", dispNum "5",
    title "NewsCh", programTitle "Evening News", and one without titles. *)
Theorem playing_tv_channel :
  forall (rt : Runtime) (w : World) (p : PlayingInfo) (u : string),
    client rt _ (log w) get_playing_info = inl p ->
    p_uri p = Val u ->
    startswith u "tv" = true ->
    match p_startDateTime p with
    | Val s => s = ""%string \/ exists t, fromisoformat rt s = Some t
    | _ => True
    end ->
    exists w',
      async_update_playing rt w = (w', inl tt) /\
      (forall n, p_dispNum p = Val n -> media_content_id (coord w') = Some n) /\
      (p_dispNum p = Missing \/ p_dispNum p = Null ->
       media_content_id (coord w') = None) /\
      (forall t, p_programTitle p = Val t -> t <> ""%string ->
       media_title (coord w') = Some t) /\
      (p_programTitle p = Missing \/ p_programTitle p = Null \/
       p_programTitle p = Val ""%string ->
       media_title (coord w') = media_content_id (coord w')) /\
      (forall t, p_title p = Val t -> t <> ""%string ->
       media_channel (coord w') = Some t) /\
      (p_title p = Missing \/ p_title p = Null \/ p_title p = Val ""%string ->
       media_channel (coord w') = media_content_id (coord w')) /\
      media_content_type (coord w') = Some MediaType.CHANNEL /\
      source (coord w') = None.
Proof.
  intros rt w p u Hc Huri Htv Hstart.
  assert (Hu : get (p_uri p) = Some u) by (rewrite Huri; reflexivity).
  assert (Hts : timestamp_ok rt p = true).
  { unfold timestamp_ok. destruct (p_startDateTime p) as [| |s]; cbn; auto.
    destruct Hstart as [->|[t ->]]; [reflexivity|].
    apply orb_true_r. }
  clear Hstart.
  pose proof (uri_not_empty _ _ Hu) as Hne.
  assert (Htr : truthy (Some u) = true).
  { apply (truthy_startswith u "tv"); [discriminate|assumption]. }
  assert (Hfields :
            forall s',
              media_content_id s' = get (p_dispNum p) ->
              media_title s'
                = or_else (get (p_programTitle p)) (get (p_dispNum p)) ->
              media_channel s'
                = or_else (get (p_title p)) (get (p_dispNum p)) ->
              (forall n, p_dispNum p = Val n -> media_content_id s' = Some n) /\
              (p_dispNum p = Missing \/ p_dispNum p = Null ->
               media_content_id s' = None) /\
              (forall t, p_programTitle p = Val t -> t <> ""%string ->
               media_title s' = Some t) /\
              (p_programTitle p = Missing \/ p_programTitle p = Null \/
               p_programTitle p = Val ""%string ->
               media_title s' = media_content_id s') /\
              (forall t, p_title p = Val t -> t <> ""%string ->
               media_channel s' = Some t) /\
              (p_title p = Missing \/ p_title p = Null \/
               p_title p = Val ""%string ->
               media_channel s' = media_content_id s')).
  { intros s' Hid Htitle Hchannel. rewrite Hid, Htitle, Hchannel.
    unfold or_else. repeat split.
    - intros n ->. reflexivity.
    - intros [-> | ->]; reflexivity.
    - intros t -> Ht. cbn. apply String.eqb_neq in Ht. rewrite Ht. reflexivity.
    - intros [-> | [-> | ->]]; reflexivity.
    - intros t -> Ht. cbn. apply String.eqb_neq in Ht. rewrite Ht. reflexivity.
    - intros [-> | [-> | ->]]; reflexivity. }
  unfold async_update_playing.
  unfold bind at 1. unfold await at 1. rewrite Hc.
  unfold timestamp_ok in Hts.
  destruct (get (p_startDateTime p)) as [s|] eqn:Hs;
    [destruct (truthy (Some s)) eqn:Hts';
       [destruct (fromisoformat rt s) as [t|] eqn:Hf; [|discriminate]|]|];
    run; cbn; rewrite Hne; cbn;
    rewrite Hu, Htr, (tv_not_extInput _ Htv), Htv; cbn;
    eexists; (split; [reflexivity|]);
    cbn [coord];
    match goal with
    | |- context [media_content_id ?s'] =>
        destruct (Hfields s' eq_refl eq_refl eq_refl)
          as (H1 & H2 & H3 & H4 & H5 & H6)
    end;
    repeat split; assumption.
Qed.

Lemma playing_tv_channel_witness :
  let device p :=
    Concrete.runtime
      (Concrete.mkScript (inl tt) (inl "active") (inl [])
         (inl Concrete.no_volume) (inl p) (inl []) (inl []) (inl [])
         (inl true) (inl []))%string in
  let after p :=
    coord (fst (async_update_playing (device p) (Concrete.fresh true))) in
  let bare := mkPlayingInfo Missing (Val "tv:dvbt") Missing (Val "5")
                (Val "") Missing Missing []%string in
  (media_content_id (after Sample.news_channel) = Some "5"%string /\
   media_title (after Sample.news_channel) = Some "Evening News"%string /\
   media_channel (after Sample.news_channel) = Some "NewsCh"%string /\
   media_content_type (after Sample.news_channel) = Some "channel"%string) /\
  (media_content_id (after bare) = Some "5"%string /\
   media_title (after bare) = Some "5"%string /\
   media_channel (after bare) = Some "5"%string /\
   media_content_type (after bare) = Some "channel"%string).
Proof.
  intros device after bare. subst after.
  destruct (playing_tv_channel (device Sample.news_channel) (Concrete.fresh true)
              Sample.news_channel "tv:dvbt" eq_refl eq_refl eq_refl I)
    as (w1 & Hrun1 & Hid1 & _ & Htitle1 & _ & Hchannel1 & _ & Htype1 & _).
  destruct (playing_tv_channel (device bare) (Concrete.fresh true)
              bare "tv:dvbt" eq_refl eq_refl eq_refl I)
    as (w2 & Hrun2 & Hid2 & _ & _ & Htitle2 & _ & Hchannel2 & Htype2 & _).
  cbv beta. rewrite Hrun1, Hrun2. cbn [fst].
  split.
  - split; [exact (Hid1 "5"%string eq_refl)|].
    split; [apply (Htitle1 "Evening News"%string eq_refl); discriminate|].
    split; [apply (Hchannel1 "NewsCh"%string eq_refl); discriminate|].
    exact Htype1.
  - pose proof (Hid2 "5"%string eq_refl) as Hid.
    split; [exact Hid|].
    split; [rewrite <- Hid; apply Htitle2; right; right; reflexivity|].
    split; [rewrite <- Hid; apply Hchannel2; left; reflexivity|].
    exact Htype2.
Defined.

(** C7 as the spec words it fails on a payload whose start timestamp is
    rejected.  The payload of the spec with startDateTime "yesterday"
    makes the deriver raise [ValueError] before it looks at the uri:
    content id, channel and content type are left unset and the title is
    the payload's title, not the program title. *)
Lemma playing_tv_channel_counterexample :
  let p := mkPlayingInfo (Val "NewsCh") (Val "tv:dvbt") Missing (Val "5")
             (Val "Evening News") (Val "yesterday") Missing []%string in
  let rt := Concrete.runtime
              (Concrete.mkScript (inl tt) (inl "active") (inl [])
                 (inl Concrete.no_volume) (inl p) (inl []) (inl []) (inl [])
                 (inl true) (inl []))%string in
  let w' := fst (async_update_playing rt (Concrete.fresh true)) in
  startswith "tv:dvbt" "tv" = true /\
  snd (async_update_playing rt (Concrete.fresh true))
    = inr (ValueError "Invalid isoformat string: 'yesterday'") /\
  media_content_id (coord w') = None /\
  media_title (coord w') = Some "NewsCh"%string /\
  media_channel (coord w') = None /\
  media_content_type (coord w') = None.
Proof. vm_compute. repeat split. Qed.

(** ** What a method leaves alone *)

Section Stable.

Variable rt : Runtime.
Variable P : World -> Prop.

Lemma stable_ret {A} (a : A) : stable P (ret a).
Proof. intros w H. exact H. Qed.

Lemma stable_raise {A} (e : exn) : stable P (@raise A e).
Proof. intros w H. exact H. Qed.

Lemma stable_self : stable P self.
Proof. intros w H. exact H. Qed.

Lemma stable_bind {A B} (m : M A) (k : A -> M B) :
  stable P m -> (forall a, stable P (k a)) -> stable P (bind m k).
Proof.
  intros Hm Hk w H. unfold bind. specialize (Hm w H).
  destruct (m w) as [w' [a|e]]; cbn in *; [apply Hk|]; assumption.
Qed.

Lemma stable_try_except {A} (m : M A) (handler : exn -> option (M A)) :
  stable P m ->
  (forall e h, handler e = Some h -> stable P h) ->
  stable P (try_except m handler).
Proof.
  intros Hm Hh w H. unfold try_except. specialize (Hm w H).
  destruct (m w) as [w' [a|e]]; cbn in *; [assumption|].
  destruct (handler e) as [h|] eqn:He; [eapply Hh; eassumption|assumption].
Qed.

Lemma stable_assign (f : Coordinator -> Coordinator) :
  (forall w, P w -> P (mkWorld (f (coord w)) (log w) (clock_reads w))) ->
  stable P (assign f).
Proof. intros Hf w H. apply Hf, H. Qed.

Lemma stable_await {T} (c : call T) :
  (forall w, P w -> P (mkWorld (coord w) (log w ++ [Called c]) (clock_reads w))) ->
  stable P (await rt c).
Proof. intros Hf w H. apply Hf, H. Qed.

Lemma stable_now :
  (forall w, P w -> P (mkWorld (coord w) (log w) (S (clock_reads w)))) ->
  stable P (datetime_now rt).
Proof. intros Hf w H. apply Hf, H. Qed.

Lemma stable_for_each {A} (l : list A) (body : A -> M unit) :
  (forall a, stable P (body a)) -> stable P (for_each l body).
Proof.
  intros Hb. induction l as [|x l IH]; cbn.
  - apply stable_ret.
  - apply stable_bind; [apply Hb|intros _; exact IH].
Qed.

Lemma stable_repeat_times (n : nat) (body : M unit) :
  stable P body -> stable P (repeat_times n body).
Proof.
  intros Hb. induction n as [|n IH]; cbn.
  - apply stable_ret.
  - apply stable_bind; [exact Hb|intros _; exact IH].
Qed.

Lemma stable_py_int (s : string) : stable P (py_int rt s).
Proof.
  unfold py_int. destruct (int_of_str rt s); [apply stable_ret|apply stable_raise].
Qed.

End Stable.

(** Breaks a goal [stable P m] down along the shape of [m]; what is left
    are the worlds after the assignments, client calls and clock readings
    of [m]. *)
Ltac stable_step :=
  match goal with
  | |- stable _ (bind _ _) => apply stable_bind; [|intros ?]
  | |- stable _ (ret _) => apply stable_ret
  | |- stable _ pass => apply stable_ret
  | |- stable _ (raise _) => apply stable_raise
  | |- stable _ self => apply stable_self
  | |- stable _ (py_int _ _) => apply stable_py_int
  | |- stable _ (try_except _ _) => apply stable_try_except; [|intros ? ? ?]
  | |- stable _ (for_each _ _) => apply stable_for_each; intros ?
  | |- stable _ (repeat_times _ _) => apply stable_repeat_times
  | |- stable _ (assign _) => apply stable_assign; intros ? ?
  | |- stable _ (await _ _) => apply stable_await; intros ? ?
  | |- stable _ (datetime_now _) => apply stable_now; intros ? ?
  | |- stable _ (if ?b then _ else _) => destruct b
  | |- stable _ (match ?x with _ => _ end) => destruct x
  end.


Lemma refresh_count_app (l1 l2 : list event) :
  refresh_count (l1 ++ l2) = (refresh_count l1 + refresh_count l2)%nat.
Proof.
  induction l1 as [|[T c|] l1 IH]; cbn; [reflexivity|exact IH|now rewrite IH].
Qed.

(** ** The refresh cycle *)

Lemma sources_extend_item_skipped kind add item s :
  skipped_updates (sources_extend_item kind add item s) = skipped_updates s.
Proof.
  unfold sources_extend_item.
  repeat match goal with
         | |- context [if ?b then _ else _] => destruct b
         | |- context [match ?x with Some _ => _ | None => _ end] => destruct x
         end; reflexivity.
Qed.

Lemma sources_extend_fold_skipped kind add items s :
  skipped_updates
    (fold_left (fun s item => sources_extend_item kind add item s) items s)
  = skipped_updates s.
Proof.
  revert s. induction items as [|item items IH]; intros s; cbn; [reflexivity|].
  rewrite IH. apply sources_extend_item_skipped.
Qed.

Section Skipped.

Variable rt : Runtime.
Variable Q : Z -> Prop.

Lemma sources_extend_keeps_skipped sources kind add sort :
  stable (on_skipped Q) (_sources_extend sources kind add sort).
Proof.
  unfold _sources_extend. repeat stable_step; try assumption.
  unfold on_skipped in *. cbn. rewrite sources_extend_fold_skipped. assumption.
Qed.

Lemma update_sources_keeps_skipped :
  stable (on_skipped Q) (async_update_sources rt).
Proof.
  unfold async_update_sources.
  repeat first [apply sources_extend_keeps_skipped | stable_step];
    assumption.
Qed.

Lemma update_volume_keeps_skipped :
  stable (on_skipped Q) (async_update_volume rt).
Proof. unfold async_update_volume. repeat stable_step; assumption. Qed.

Lemma update_playing_keeps_skipped :
  stable (on_skipped Q) (async_update_playing rt).
Proof. unfold async_update_playing. repeat stable_step; assumption. Qed.

End Skipped.

(** When the body of the refresh cycle ends, [skipped_updates] has the
    value it had at the start, if the power query did not come back, or is
    zero. *)
Lemma update_body_skipped (rt : Runtime) (k : Z) :
  stable (on_skipped (fun n => n = k \/ n = 0)) (update_body rt).
Proof.
  unfold update_body.
  repeat first
    [ apply update_sources_keeps_skipped
    | apply update_volume_keeps_skipped
    | apply update_playing_keeps_skipped
    | stable_step ];
    try assumption; try discriminate.
  - match goal with H : _ = Some _ |- _ =>
      destruct e as [[] ?| | | | | |]; try discriminate H; injection H as <-
    end.
    apply stable_raise.
  - right. reflexivity.
Qed.

(** C2: when the cycle fails with [BraviaNotFound], let [w'] be the world
    at that moment.  With [skipped_updates] below 10 there, the cycle sets
    [connected] to false, adds exactly one to [skipped_updates] and
    returns; with 10 or more it raises [UpdateFailed] and changes nothing
    else.  The value at that moment is the one the cycle started with when
    the connection or the power query failed, and zero afterwards. *)
Theorem refresh_not_found :
  forall (rt : Runtime) (w w' : World) (msg : string),
    update_body rt w = (w', inr (BraviaError BraviaNotFound msg)) ->
    (skipped_updates (coord w') = skipped_updates (coord w) \/
     skipped_updates (coord w') = 0) /\
    (skipped_updates (coord w') < 10 ->
       _async_update_data rt w
         = (mkWorld (set_skipped_updates (skipped_updates (coord w') + 1)
                       (set_connected false (coord w')))
              (log w') (clock_reads w'), inl tt)) /\
    (10 <= skipped_updates (coord w') ->
       _async_update_data rt w
         = (w', inr (UpdateFailed "Error communicating with device"))).
Proof.
  intros rt w w' msg Hbody. split; [|split].
  - pose proof (update_body_skipped rt (skipped_updates (coord w)) w) as H.
    unfold on_skipped in H. rewrite Hbody in H. apply H. left. reflexivity.
  - intros Hlt. unfold _async_update_data, try_except. rewrite Hbody. run.
    apply Z.ltb_lt in Hlt. rewrite Hlt. reflexivity.
  - intros Hge. unfold _async_update_data, try_except. rewrite Hbody. run.
    apply Z.ltb_ge in Hge. rewrite Hge. reflexivity.
Qed.

Lemma refresh_not_found_witness :
  (skipped_updates (coord (Sample.skipped 9)) = 9 /\
   _async_update_data (Concrete.runtime Sample.reloading) (Sample.skipped 9)
     = (mkWorld (set_skipped_updates 10
                   (set_connected false (coord (Sample.skipped 9))))
          (log (Sample.skipped 9) ++ [Called get_power_status]) 0, inl tt)) /\
  (skipped_updates (coord (Sample.skipped 10)) = 10 /\
   _async_update_data (Concrete.runtime Sample.reloading) (Sample.skipped 10)
     = (mkWorld (coord (Sample.skipped 10))
          (log (Sample.skipped 10) ++ [Called get_power_status]) 0,
        inr (UpdateFailed "Error communicating with device"))).
Proof.
  split; (split; [reflexivity|]).
  - pose proof (refresh_not_found (Concrete.runtime Sample.reloading)
                  (Sample.skipped 9)
                  (mkWorld (coord (Sample.skipped 9))
                     (log (Sample.skipped 9) ++ [Called get_power_status]) 0)
                  "404") as H.
    destruct H as (_ & H & _); [vm_compute; reflexivity|].
    rewrite H; [reflexivity|vm_compute; reflexivity].
  - pose proof (refresh_not_found (Concrete.runtime Sample.reloading)
                  (Sample.skipped 10)
                  (mkWorld (coord (Sample.skipped 10))
                     (log (Sample.skipped 10) ++ [Called get_power_status]) 0)
                  "404") as H.
    destruct H as (_ & _ & H); [vm_compute; reflexivity|].
    rewrite H; [reflexivity|vm_compute; discriminate].
Defined.

(** ** Commands *)

Section Commands.

Variable rt : Runtime.
Variable P : World -> Prop.
Hypothesis P_calls : call_invariant P.

Lemma source_start_stable uri kind : stable P (async_source_start rt uri kind).
Proof.
  unfold async_source_start. repeat stable_step; now apply P_calls.
Qed.

Lemma source_find_loop_stable labels query kind numeric items coarse :
  stable P (source_find_loop rt labels query kind numeric items coarse).
Proof.
  revert coarse. induction items as [|[uri item] rest IH]; intros coarse; cbn.
  - apply stable_ret.
  - repeat first [apply IH | apply source_start_stable | stable_step].
Qed.

Lemma source_find_stable query kind : stable P (async_source_find rt query kind).
Proof.
  unfold async_source_find.
  repeat first
    [apply source_find_loop_stable | apply source_start_stable | stable_step].
Qed.

Lemma wrapped_stable (c : command) : stable P (wrapped_of rt c).
Proof.
  destruct c; cbn;
    unfold async_turn_on__wrapped, async_turn_off__wrapped,
      async_set_volume_level__wrapped, async_volume_up__wrapped,
      async_volume_down__wrapped, async_volume_mute__wrapped,
      async_media_play__wrapped, async_media_pause__wrapped,
      async_media_stop__wrapped, async_media_next_track__wrapped,
      async_media_previous_track__wrapped, async_play_media__wrapped,
      async_select_source__wrapped, async_send_command__wrapped,
      async_reboot_device__wrapped, async_terminate_apps__wrapped;
    repeat first [apply source_find_stable | stable_step];
    now apply P_calls.
Qed.

End Commands.

Lemma refresh_count_calls (n : nat) :
  call_invariant (fun w => refresh_count (log w) = n).
Proof.
  intros T c w H. cbn. rewrite refresh_count_app. cbn. lia.
Qed.

Lemma method_of_wrapped (rt : Runtime) (c : command) :
  method_of rt c = catch_braviatv_errors (wrapped_of rt c).
Proof. destruct c; reflexivity. Qed.

(** C3: for each decorated command and each client, when the body returns
    or raises a [BraviaError] the method returns normally, the world is the
    one the body left with one refresh request added at the end, and that
    request is the only one: the body makes none. *)
Theorem command_errors_caught :
  forall (rt : Runtime) (c : command) (w w1 : World) (r : res unit),
    wrapped_of rt c w = (w1, r) ->
    ok_or_device_error r ->
    method_of rt c w
      = (mkWorld (coord w1) (log w1 ++ [RefreshRequested]) (clock_reads w1),
         inl tt) /\
    refresh_count (log w1) = refresh_count (log w) /\
    refresh_count (log (fst (method_of rt c w))) = S (refresh_count (log w)).
Proof.
  intros rt c w w1 r Hbody Hr.
  assert (Hcount : refresh_count (log w1) = refresh_count (log w)).
  { pose proof (wrapped_stable rt _ (refresh_count_calls (refresh_count (log w)))
                  c w eq_refl) as H.
    rewrite Hbody in H. exact H. }
  assert (Hrun : method_of rt c w
                 = (mkWorld (coord w1) (log w1 ++ [RefreshRequested])
                      (clock_reads w1), inl tt)).
  { rewrite method_of_wrapped. unfold catch_braviatv_errors. run.
    rewrite Hbody. destruct r as [[]|e]; cbn in *; [reflexivity|].
    rewrite Hr. reflexivity. }
  split; [exact Hrun|]. split; [exact Hcount|].
  rewrite Hrun. cbn. rewrite refresh_count_app, Hcount. cbn. lia.
Qed.

Lemma command_errors_caught_witness :
  wrapped_of (Concrete.runtime Sample.refusing) TurnOff (Concrete.fresh true)
    = (mkWorld (coord (Concrete.fresh true)) [Called turn_off] 0,
       inr (BraviaError BraviaOther "refused")) /\
  method_of (Concrete.runtime Sample.refusing) TurnOff (Concrete.fresh true)
    = (mkWorld (coord (Concrete.fresh true))
         [Called turn_off; RefreshRequested] 0, inl tt).
Proof.
  split; [reflexivity|].
  exact (proj1 (command_errors_caught (Concrete.runtime Sample.refusing) TurnOff
                  (Concrete.fresh true) _ _ eq_refl eq_refl)).
Defined.

(** ** The source resolver *)

Lemma find_last_In {A} (f : A -> bool) (l : list A) (x : A) :
  find_last f l = Some x -> In x l /\ f x = true.
Proof.
  induction l as [|y l IH]; cbn; [discriminate|].
  destruct (find_last f l) as [z|].
  - intros [= ->]. destruct (IH eq_refl). auto.
  - destruct (f y) eqn:Hy; [|discriminate]. intros [= ->]. auto.
Qed.

Section Resolver.

Variable rt : Runtime.
Variables (labels : bool) (query kind : string).

(** The loop of [async_source_find] on titles: it leaves at the first
    exact match; without one it runs to the end, where [coarse_uri] is
    the uri of the last substring match. *)
Lemma source_find_loop_titles (items : dict Entry) :
  catalog_ok labels items = true ->
  forall (coarse : option string) (w : World),
    source_find_loop rt labels query kind false items coarse w
    = match find (exact_match rt labels query kind) items with
      | Some (uri, _) => (async_source_start rt uri kind ;; ret Returned) w
      | None =>
          (w, inl (Finished
                     match find_last (coarse_match rt labels query kind) items with
                     | Some (uri, _) => Some uri
                     | None => coarse
                     end))
      end.
Proof.
  induction items as [|[uri item] rest IH]; intros Hok coarse w.
  - reflexivity.
  - cbn [catalog_ok forallb fst snd] in Hok.
    apply andb_prop in Hok as [Hhd Hok]. apply andb_prop in Hhd as [_ Htitle].
    cbn [source_find_loop find find_last].
    unfold exact_match, coarse_match. cbn [fst snd].
    fold (exact_match rt labels query kind).
    fold (coarse_match rt labels query kind).
    destruct (e_type item =? kind)%string; cbn [andb].
    + fold (display_title labels (e_item item)).
      destruct (display_title labels (e_item item)) as [title|];
        [|discriminate Htitle].
      destruct (str_lower rt query =? str_lower rt title)%string;
        [reflexivity|].
      destruct (contains (str_lower rt query) (str_lower rt title)).
      * rewrite (IH Hok).
        destruct (find (exact_match rt labels query kind) rest) as [[u e]|];
          [reflexivity|].
        destruct (find_last (coarse_match rt labels query kind) rest)
          as [[u e]|]; reflexivity.
      * rewrite (IH Hok).
        destruct (find (exact_match rt labels query kind) rest) as [[u e]|];
          [reflexivity|].
        destruct (find_last (coarse_match rt labels query kind) rest)
          as [[u e]|]; reflexivity.
    + rewrite (IH Hok).
      destruct (find (exact_match rt labels query kind) rest) as [[u e]|];
        [reflexivity|].
      destruct (find_last (coarse_match rt labels query kind) rest)
        as [[u e]|]; reflexivity.
Qed.

End Resolver.

(** The resolver on titles, in one equation. *)
Lemma source_find_titles (rt : Runtime) (query kind : string) (w : World) :
  is_uri query = false ->
  numeric_search rt query kind = false ->
  catalog_ok (enable_user_labels (coord w)) (source_map (coord w)) = true ->
  async_source_find rt query kind w
  = match find (exact_match rt (enable_user_labels (coord w)) query kind)
            (source_map (coord w)) with
    | Some (uri, _) => async_source_start rt uri kind w
    | None =>
        match find_last (coarse_match rt (enable_user_labels (coord w)) query kind)
                (source_map (coord w)) with
        | Some (uri, _) => async_source_start rt uri kind w
        | None => (w, inr (ValueError ("Not found " ++ kind ++ ": " ++ query)%string))
        end
    end.
Proof.
  intros Huri Hnum Hok.
  unfold async_source_find. unfold is_uri in Huri. rewrite Huri.
  unfold numeric_search in Hnum. rewrite Hnum.
  unfold bind at 1. unfold self at 1. unfold bind at 1.
  rewrite (source_find_loop_titles rt _ query kind _ Hok).
  destruct (find _ (source_map (coord w))) as [[uri e]|] eqn:Hfind.
  - unfold bind, ret.
    destruct (async_source_start rt uri kind w) as [w' [[]|err]]; reflexivity.
  - destruct (find_last _ (source_map (coord w))) as [[uri e]|] eqn:Hlast;
      [|reflexivity].
    apply find_last_In in Hlast as [Hin _].
    unfold catalog_ok in Hok. rewrite forallb_forall in Hok.
    apply Hok in Hin. cbn [fst] in Hin. apply andb_prop in Hin as [-> _].
    reflexivity.
Qed.

(** C1, as the code has it: for a query that is not a uri and is matched
    on titles, over a catalog as the builder leaves it, the entry
    dispatched is the first exact case-insensitive match of the display
    title, whatever substring candidates were scanned before it; without an
    exact match it is the last substring match in insertion order. *)
Theorem source_find_by_title :
  forall (rt : Runtime) (query kind : string) (w : World),
    is_uri query = false ->
    numeric_search rt query kind = false ->
    catalog_ok (enable_user_labels (coord w)) (source_map (coord w)) = true ->
    let labels := enable_user_labels (coord w) in
    let items := source_map (coord w) in
    (forall uri e,
       find (exact_match rt labels query kind) items = Some (uri, e) ->
       async_source_find rt query kind w = async_source_start rt uri kind w) /\
    (find (exact_match rt labels query kind) items = None ->
     forall uri e,
       find_last (coarse_match rt labels query kind) items = Some (uri, e) ->
       async_source_find rt query kind w = async_source_start rt uri kind w).
Proof.
  intros rt query kind w Huri Hnum Hok labels items. subst labels items.
  rewrite (source_find_titles rt query kind w Huri Hnum Hok).
  split.
  - intros uri e ->. reflexivity.
  - intros -> uri e ->. reflexivity.
Qed.

Lemma source_find_by_title_witness :
  (option_map fst
     (find (coarse_match (Concrete.runtime Sample.newsroom_script) true
              "Newsroom" SourceType.INPUT)
        (source_map (coord Sample.newsroom)))
   = Some "extInput:hdmi?port=1"%string /\
   async_source_find (Concrete.runtime Sample.newsroom_script)
     "Newsroom" SourceType.INPUT Sample.newsroom
   = async_source_start (Concrete.runtime Sample.newsroom_script)
       "extInput:hdmi?port=2" SourceType.INPUT Sample.newsroom) /\
  async_source_find (Concrete.runtime Sample.newsroom_script)
    "com" SourceType.INPUT Sample.newsroom
  = async_source_start (Concrete.runtime Sample.newsroom_script)
      "extInput:hdmi?port=3" SourceType.INPUT Sample.newsroom.
Proof.
  split; [split; [vm_compute; reflexivity|]|].
  - destruct (source_find_by_title (Concrete.runtime Sample.newsroom_script)
                "Newsroom" SourceType.INPUT Sample.newsroom)
      as [Hexact _]; [vm_compute; reflexivity ..|].
    eapply Hexact. vm_compute. reflexivity.
  - destruct (source_find_by_title (Concrete.runtime Sample.newsroom_script)
                "com" SourceType.INPUT Sample.newsroom)
      as [_ Hcoarse]; [vm_compute; reflexivity ..|].
    eapply Hcoarse; vm_compute; reflexivity.
Defined.

(** C1 as the spec words it fails twice.  With the inputs "Newsroom
    Live", "Newsroom", "Comedy", "News at Ten" and the query "news" there
    is no exact match, the first substring match in insertion order is port
    1, and the resolver plays port 4, the last one.  And a numeric query of
    kind CHANNEL is compared with display numbers only: "5" is the exact
    title of a channel whose number is 7, and is not found. *)
Lemma source_find_first_substring_counterexample :
  let rt := Concrete.runtime Sample.newsroom_script in
  let items := source_map (coord Sample.newsroom) in
  is_uri "news" = false /\
  find (exact_match rt true "news" SourceType.INPUT) items = None /\
  option_map fst (find (coarse_match rt true "news" SourceType.INPUT) items)
    = Some "extInput:hdmi?port=1"%string /\
  async_source_find rt "news" SourceType.INPUT Sample.newsroom
    = (mkWorld (coord Sample.newsroom)
         (log Sample.newsroom ++ [Called (set_play_content "extInput:hdmi?port=4")])
         0, inl tt) /\
  is_uri "5" = false /\
  option_map fst (find (exact_match rt true "5" SourceType.CHANNEL) items)
    = Some "tv:dvbt?trip=1.2.3"%string /\
  async_source_find rt "5" SourceType.CHANNEL Sample.newsroom
    = (Sample.newsroom, inr (ValueError "Not found channel: 5")).
Proof. vm_compute. repeat split. Qed.

(** ** Errors the decorator lets through *)

Lemma catch_lets_through (body : M unit) (w w' : World) (e : exn) :
  body w = (w', inr e) ->
  is_BraviaError e = false ->
  catch_braviatv_errors body w = (w', inr e).
Proof.
  intros Hbody He. unfold catch_braviatv_errors. run. rewrite Hbody, He.
  reflexivity.
Qed.

(** C10: [async_play_media] with a media type other than APP and CHANNEL
    raises [ValueError] to its caller and leaves the world as it was: no
    client call, no refresh request.  When the resolver raises
    [ValueError], play-media and select-source raise it too, with no
    refresh request after it; and when the catalog holds no match for a
    title query the resolver raises its not-found error with the world
    unchanged. *)
Theorem play_media_value_errors :
  forall (rt : Runtime) (media_type media_id : string) (w : World),
    (mem media_type [MediaType.APP; MediaType.CHANNEL] = false ->
       async_play_media rt media_type media_id w
         = (w, inr (ValueError ("Invalid media type: " ++ media_type)%string))) /\
    (forall w' msg,
       mem media_type [MediaType.APP; MediaType.CHANNEL] = true ->
       async_source_find rt media_id media_type w = (w', inr (ValueError msg)) ->
       async_play_media rt media_type media_id w = (w', inr (ValueError msg)) /\
       refresh_count (log w') = refresh_count (log w)) /\
    (forall w' msg,
       async_source_find rt media_id SourceType.INPUT w = (w', inr (ValueError msg)) ->
       async_select_source rt media_id w = (w', inr (ValueError msg)) /\
       refresh_count (log w') = refresh_count (log w)) /\
    (is_uri media_id = false ->
     numeric_search rt media_id media_type = false ->
     catalog_ok (enable_user_labels (coord w)) (source_map (coord w)) = true ->
     find (exact_match rt (enable_user_labels (coord w)) media_id media_type)
       (source_map (coord w)) = None ->
     find_last (coarse_match rt (enable_user_labels (coord w)) media_id media_type)
       (source_map (coord w)) = None ->
     async_source_find rt media_id media_type w
       = (w, inr (ValueError ("Not found " ++ media_type ++ ": " ++ media_id)%string))).
Proof.
  intros rt media_type media_id w.
  assert (Hcount : forall kind w' r,
             async_source_find rt media_id kind w = (w', r) ->
             refresh_count (log w') = refresh_count (log w)).
  { intros kind w' r Hfind.
    pose proof (source_find_stable rt _ (refresh_count_calls (refresh_count (log w)))
                  media_id kind w eq_refl) as H.
    rewrite Hfind in H. exact H. }
  split; [|split; [|split]].
  - intros Hty. unfold async_play_media. apply catch_lets_through; [|reflexivity].
    unfold async_play_media__wrapped. rewrite Hty. reflexivity.
  - intros w' msg Hty Hfind. split; [|eapply Hcount; eassumption].
    unfold async_play_media. apply catch_lets_through; [|reflexivity].
    unfold async_play_media__wrapped. rewrite Hty. exact Hfind.
  - intros w' msg Hfind. split; [|eapply Hcount; eassumption].
    unfold async_select_source. apply catch_lets_through; [|reflexivity].
    exact Hfind.
  - intros Huri Hnum Hok Hexact Hcoarse.
    rewrite (source_find_titles rt media_id media_type w Huri Hnum Hok).
    rewrite Hexact, Hcoarse. reflexivity.
Qed.

Lemma play_media_value_errors_witness :
  let rt := Concrete.runtime Sample.newsroom_script in
  async_play_media rt "music" "Newsroom" Sample.newsroom
    = (Sample.newsroom, inr (ValueError "Invalid media type: music")) /\
  async_play_media rt "app" "Newsroom" Sample.newsroom
    = (Sample.newsroom, inr (ValueError "Not found app: Newsroom")) /\
  async_select_source rt "Drama" Sample.newsroom
    = (Sample.newsroom, inr (ValueError "Not found input: Drama")).
Proof.
  intros rt.
  destruct (play_media_value_errors rt "music" "Newsroom" Sample.newsroom)
    as (Hinvalid & _).
  destruct (play_media_value_errors rt "app" "Newsroom" Sample.newsroom)
    as (_ & Hplay & _ & Hnone).
  destruct (play_media_value_errors rt "Drama" "Drama" Sample.newsroom)
    as (_ & _ & Hselect & _).
  destruct (play_media_value_errors rt "input" "Drama" Sample.newsroom)
    as (_ & _ & _ & Hnone').
  split; [|split].
  - apply Hinvalid. vm_compute. reflexivity.
  - apply Hplay; [vm_compute; reflexivity|].
    apply Hnone; vm_compute; reflexivity.
  - apply Hselect. apply Hnone'; vm_compute; reflexivity.
Defined.

(** ** The source catalog *)




Lemma keys_dict_set {V} (d : dict V) (k : string) (v : V) :
  keys (dict_set d k v) = if dict_mem d k then keys d else keys d ++ [k].
Proof.
  unfold dict_mem, keys. induction d as [|[k' v'] d IH]; cbn; [reflexivity|].
  destruct (k =? k')%string; [reflexivity|]. cbn. rewrite IH.
  destruct (dict_get d k); reflexivity.
Qed.


Lemma dict_get_set {V} (d : dict V) (k : string) (v : V) :
  dict_get (dict_set d k v) k = Some v.
Proof.
  induction d as [|[k' v'] d IH]; cbn.
  - rewrite String.eqb_refl. reflexivity.
  - destruct (String.eqb_spec k k') as [->|Hne]; cbn.
    + rewrite String.eqb_refl. reflexivity.
    + destruct (String.eqb_spec k k'); [congruence|exact IH].
Qed.



(** One turn of the loop, spelled out on the two containers. *)
Lemma sources_extend_item_spec kind add item s :
  let s' := sources_extend_item kind add item s in
  enable_user_labels s' = enable_user_labels s /\
  (valid_item (enable_user_labels s) item = false ->
     source_map s' = source_map s /\ source_list s' = source_list s) /\
  (forall t u,
     valid_item (enable_user_labels s) item = true ->
     display_title (enable_user_labels s) item = Some t ->
     get (i_uri item) = Some u ->
     source_map s' = dict_set (source_map s) u (mkEntry item kind) /\
     source_list s'
       = if add && negb (mem t (source_list s))
         then source_list s ++ [t] else source_list s).
Proof.
  unfold sources_extend_item, valid_item, display_title. cbn zeta.
  destruct (if enable_user_labels s && truthy (get (i_label item))
            then get (i_label item) else get (i_title item)) as [t|];
    destruct (get (i_uri item)) as [u|]; cbn [truthy negb orb andb].
  - destruct (negb (t =? "")%string) eqn:Ht; cbn [negb orb andb].
    + destruct (negb (u =? "")%string) eqn:Hu; cbn [negb orb andb].
      * split; [destruct (add && _); reflexivity|]. split; [discriminate|].
        intros t' u' _ [= <-] [= <-]. destruct (add && _); split; reflexivity.
      * split; [reflexivity|]. split; [auto|discriminate].
    + split; [reflexivity|]. split; [auto|discriminate].
  - rewrite andb_false_r, orb_true_r. split; [reflexivity|].
    split; [auto|discriminate].
  - split; [reflexivity|]. split; [auto|discriminate].
  - split; [reflexivity|]. split; [auto|discriminate].
Qed.

Lemma valid_item_fields labels item :
  valid_item labels item = true ->
  exists t u, display_title labels item = Some t /\ get (i_uri item) = Some u.
Proof.
  unfold valid_item.
  destruct (display_title labels item) as [t|]; [|discriminate].
  destruct (get (i_uri item)) as [u|]; [|rewrite andb_false_r; discriminate].
  eauto.
Qed.


Section Extended.

Variables (kind : string) (add : bool).

Lemma extended_labels items s :
  enable_user_labels (extended kind add items s) = enable_user_labels s.
Proof.
  revert s. induction items as [|item items IH]; intros s; [reflexivity|].
  cbn. unfold extended in IH. rewrite IH.
  apply (sources_extend_item_spec kind add item s).
Qed.





End Extended.








Lemma sources_extend_run sources kind add sort (w : World) :
  _sources_extend sources kind add sort w
  = match (if truthy sort then
             match sort with
             | Some k => sorted (fun d => get_or (item_field k d) (Some ""%string)) sources
             | None => Some sources
             end
           else Some sources) with
    | Some l =>
        (mkWorld (extended kind add l (coord w)) (log w) (clock_reads w), inl tt)
    | None => (w, inr TypeError)
    end.
Proof.
  unfold _sources_extend. run.
  destruct (truthy sort); [|reflexivity].
  destruct sort as [k|]; [|reflexivity].
  destruct (sorted _ sources); reflexivity.
Qed.



Lemma bind_assign {B} (f : Coordinator -> Coordinator) (k : unit -> M B) w :
  bind (assign f) k w = k tt (mkWorld (f (coord w)) (log w) (clock_reads w)).
Proof. reflexivity. Qed.

Lemma bind_await {T B} rt (c : call T) (k : T -> M B) w :
  bind (await rt c) k w
  = match client rt T (log w) c with
    | inl a => k a (mkWorld (coord w) (log w ++ [Called c]) (clock_reads w))
    | inr e => (mkWorld (coord w) (log w ++ [Called c]) (clock_reads w), inr e)
    end.
Proof. unfold bind, await. destruct (client rt T (log w) c); reflexivity. Qed.

Lemma bind_sources_extend {B} sources kind add (k : unit -> M B) w :
  bind (_sources_extend sources kind add None) k w
  = k tt (mkWorld (extended kind add sources (coord w)) (log w) (clock_reads w)).
Proof. unfold bind. rewrite sources_extend_run. reflexivity. Qed.

(** The build when the three queries are answered. *)
Lemma update_sources_answered rt w inputs apps channels :
  client rt _ (log w) get_external_status = inl inputs ->
  client rt _ (log w ++ [Called get_external_status]) get_app_list = inl apps ->
  client rt _ (log w ++ [Called get_external_status; Called get_app_list])
    (get_content_list_all "tv") = inl channels ->
  let s1 := extended SourceType.INPUT true inputs
              (set_source_map [] (set_source_list [] (coord w))) in
  async_update_sources rt w
  = match sorted (fun d => get_or (item_field "title" d) (Some ""%string)) apps with
    | Some apps' =>
        (mkWorld (extended SourceType.CHANNEL false channels
                    (extended SourceType.APP false apps' s1))
           (log w ++ [Called get_external_status; Called get_app_list;
                      Called (get_content_list_all "tv")])
           (clock_reads w), inl tt)
    | None =>
        (mkWorld s1 (log w ++ [Called get_external_status; Called get_app_list])
           (clock_reads w), inr TypeError)
    end.
Proof.
  intros Hinputs Happs Hchannels s1. unfold async_update_sources.
  rewrite !bind_assign. cbv beta. rewrite bind_await. cbn [coord log clock_reads].
  rewrite Hinputs, bind_sources_extend. cbn [coord log clock_reads].
  rewrite bind_await. cbn [coord log clock_reads]. rewrite Happs.
  rewrite <- app_assoc. cbn [app].
  unfold bind at 1. rewrite sources_extend_run. cbn [truthy negb String.eqb].
  destruct (sorted _ apps) as [apps'|]; [|reflexivity].
  rewrite bind_await. cbn [coord log clock_reads].
  rewrite <- app_assoc. cbn [app]. rewrite Hchannels.
  rewrite sources_extend_run. reflexivity.
Qed.



(** ** User labels *)

Lemma labelled_display_title (item : Item) (l : string) :
  get (i_label item) = Some l ->
  truthy (Some l) = true ->
  display_title true item = Some l.
Proof. intros Hl Ht. unfold display_title. rewrite Hl, Ht. reflexivity. Qed.

Lemma label_get_or (item : Item) (l : string) (default : option string) :
  get (i_label item) = Some l -> get_or (i_label item) default = Some l.
Proof. destruct (i_label item); cbn; congruence. Qed.

(** C5, as the code has it: with user labels enabled, an item with a
    non-empty label has the label as display title; the catalog build adds
    the label, not the title, to [source_list]; the playback deriver gives
    the label as title and source when the uri of a catalog entry with that
    item is playing, unless the uri starts with "tv", where labels are not
    looked at, and given that the start timestamp of the payload is absent,
    empty or accepted by [datetime.fromisoformat]; and the resolver
    compares the query with the label. *)
Theorem label_override :
  forall (rt : Runtime) (item : Item) (l : string),
    get (i_label item) = Some l ->
    truthy (Some l) = true ->
    display_title true item = Some l /\
    (forall kind s u,
       enable_user_labels s = true ->
       get (i_uri item) = Some u ->
       truthy (Some u) = true ->
       source_list (sources_extend_item kind true item s)
         = if mem l (source_list s) then source_list s
           else source_list s ++ [l]) /\
    (forall w p u kind,
       enable_user_labels (coord w) = true ->
       dict_get (source_map (coord w)) u = Some (mkEntry item kind) ->
       client rt _ (log w) get_playing_info = inl p ->
       get (p_uri p) = Some u ->
       startswith u "tv" = false ->
       timestamp_ok rt p = true ->
       exists w',
         async_update_playing rt w = (w', inl tt) /\
         media_title (coord w') = Some l /\
         source (coord w') = Some l) /\
    (forall query kind uri rest coarse,
       source_find_loop rt true query kind false
         ((uri, mkEntry item kind) :: rest) coarse
       = if (str_lower rt query =? str_lower rt l)%string then
           async_source_start rt uri kind ;; ret Returned
         else if contains (str_lower rt query) (str_lower rt l) then
           source_find_loop rt true query kind false rest (Some uri)
         else
           source_find_loop rt true query kind false rest coarse).
Proof.
  intros rt item l Hl Hlt.
  pose proof (labelled_display_title item l Hl Hlt) as Hdisplay.
  split; [exact Hdisplay|]. split; [|split].
  - intros kind s u Hen Hu Hut.
    destruct (sources_extend_item_spec kind true item s) as (_ & _ & Hkeep).
    rewrite Hen in Hkeep.
    destruct (Hkeep l u) as [_ ->]; [|exact Hdisplay|exact Hu|].
    + unfold valid_item. rewrite Hdisplay, Hu, Hlt, Hut. reflexivity.
    + cbn [andb]. destruct (mem l (source_list s)); reflexivity.
  - intros w p u kind Hen Hget Hc Hu Htv Hts.
    pose proof (uri_not_empty _ _ Hu) as Hne.
    assert (Hmem : dict_mem (source_map (coord w)) u = true).
    { unfold dict_mem. rewrite Hget. reflexivity. }
    unfold async_update_playing.
    unfold bind at 1. unfold await at 1. rewrite Hc.
    unfold timestamp_ok in Hts.
    destruct (get (p_startDateTime p)) as [s|] eqn:Hs;
      [destruct (truthy (Some s)) eqn:Hts';
         [destruct (fromisoformat rt s) as [t|] eqn:Hf; [|discriminate]|]|];
      run; cbn; rewrite Hne; cbn; rewrite Hu, Htv, Hen, Hmem, Hget; cbn;
      rewrite Hl, (label_get_or item l _ Hl), Hlt; cbn; cbn in Hlt;
      rewrite ?Hlt;
      destruct (u =? "")%string; cbn;
      destruct (startswith u "extInput"); cbn; rewrite ?Hlt;
      eexists; repeat split.
  - intros query kind uri rest coarse.
    cbn [source_find_loop e_type e_item andb]. rewrite String.eqb_refl.
    rewrite Hl, Hlt. reflexivity.
Qed.

Lemma label_override_witness :
  let rt := Concrete.runtime Sample.console_script in
  display_title true
    (mkItem (Val "HDMI 1") (Val "Game Console") (Val "extInput:hdmi?port=1")
       Missing)%string
  = Some "Game Console"%string /\
  exists w',
    async_update_playing rt Sample.console = (w', inl tt) /\
    media_title (coord w') = Some "Game Console"%string /\
    source (coord w') = Some "Game Console"%string.
Proof.
  intros rt.
  destruct (label_override rt
              (mkItem (Val "HDMI 1") (Val "Game Console")
                 (Val "extInput:hdmi?port=1") Missing)%string
              "Game Console" eq_refl eq_refl) as (Hdisplay & _ & Hplaying & _).
  split; [exact Hdisplay|].
  apply (Hplaying Sample.console
           (mkPlayingInfo Missing (Val "extInput:hdmi?port=1"%string) Missing
              Missing Missing Missing Missing [])
           "extInput:hdmi?port=1"%string SourceType.INPUT);
    vm_compute; reflexivity.
Defined.

(** C5 as the spec words it fails twice in the deriver.  In the channel
    branch: user labels are enabled, the catalog entry of "tv:dvbt"
    carries the label "My News", and while that uri is playing the deriver
    gives the program title "Evening News" as title and no source.  And
    on a start timestamp that is rejected: the catalog entry of the
    playing external input carries the label "Game Console", and the
    deriver raises [ValueError] with the payload's title "HDMI 1" as title
    and no source. *)
Lemma label_override_counterexample :
  let rt := Concrete.runtime Sample.labelled_channel_script in
  let w := Sample.labelled_channel in
  let w' := fst (async_update_playing rt w) in
  let p2 := mkPlayingInfo (Val "HDMI 1") (Val "extInput:hdmi?port=1") Missing
              Missing Missing (Val "yesterday") Missing []%string in
  let rt2 := Concrete.runtime
               (Concrete.mkScript (inl tt) (inl "active") (inl [])
                  (inl Concrete.no_volume) (inl p2) (inl []) (inl []) (inl [])
                  (inl true) (inl []))%string in
  let w2 := Sample.console in
  let w2' := fst (async_update_playing rt2 w2) in
  (enable_user_labels (coord w) = true /\
   dict_get (source_map (coord w)) "tv:dvbt"
     = Some (mkEntry (mkItem (Val "NewsCh") (Val "My News") (Val "tv:dvbt")
                        (Val "5"))%string SourceType.CHANNEL) /\
   client rt _ (log w) get_playing_info = inl Sample.news_channel /\
   media_uri (coord w') = Some "tv:dvbt"%string /\
   media_title (coord w') = Some "Evening News"%string /\
   source (coord w') = None) /\
  (enable_user_labels (coord w2) = true /\
   dict_get (source_map (coord w2)) "extInput:hdmi?port=1"
     = Some (mkEntry (mkItem (Val "HDMI 1") (Val "Game Console")
                        (Val "extInput:hdmi?port=1") Missing)%string
               SourceType.INPUT) /\
   snd (async_update_playing rt2 w2)
     = inr (ValueError "Invalid isoformat string: 'yesterday'") /\
   media_uri (coord w2') = Some "extInput:hdmi?port=1"%string /\
   media_title (coord w2') = Some "HDMI 1"%string /\
   source (coord w2') = None).
Proof. vm_compute. repeat split. Qed.

(** * Further properties *)

(** ** Outcomes of the refresh cycle *)

(** X1: the refresh cycle keeps [skipped_updates] between 0 and 10,
    whatever the device does and however the cycle ends. *)
Theorem skipped_updates_bounded :
  forall (rt : Runtime) (w : World),
    0 <= skipped_updates (coord w) <= 10 ->
    0 <= skipped_updates (coord (fst (_async_update_data rt w))) <= 10.
Proof.
  intros rt w Hw.
  pose proof (update_body_skipped rt (skipped_updates (coord w)) w
                (or_introl eq_refl)) as Hb.
  unfold on_skipped in Hb. unfold _async_update_data, try_except.
  destruct (update_body rt w) as [w' [[]|e]]; cbn [fst snd] in *; [lia|].
  destruct e as [k msg| | | | | |]; cbn [fst]; try lia.
  destruct k; run; cbn; try lia.
  destruct (skipped_updates (coord w') <? 10) eqn:Hlt; cbn; [|lia].
  apply Z.ltb_lt in Hlt. lia.
Qed.

Lemma skipped_updates_bounded_witness :
  skipped_updates
    (coord (fst (_async_update_data (Concrete.runtime Sample.reloading)
                   (Sample.skipped 10)))) = 10 /\
  0 <= skipped_updates
         (coord (fst (_async_update_data (Concrete.runtime Sample.reloading)
                        (Sample.skipped 10)))) <= 10.
Proof.
  split; [vm_compute; reflexivity|].
  apply (skipped_updates_bounded (Concrete.runtime Sample.reloading)
           (Sample.skipped 10)).
  vm_compute. split; discriminate.
Defined.

(** X2: no [BraviaError] leaves the refresh cycle: what it raises is
    [ConfigEntryAuthFailed], [UpdateFailed] or an exception that is not a
    device-API error. *)
Theorem refresh_raises_no_device_error :
  forall (rt : Runtime) (w : World) (e : exn),
    snd (_async_update_data rt w) = inr e ->
    is_BraviaError e = false.
Proof.
  intros rt w e. unfold _async_update_data, try_except.
  destruct (update_body rt w) as [w' [[]|e']]; cbn [snd]; [discriminate|].
  destruct e' as [k msg| | | | | |]; cbn [snd];
    try (intros [= <-]; reflexivity).
  destruct k; run; try discriminate; try (intros [= <-]; reflexivity).
  destruct (skipped_updates (coord w') <? 10); cbn;
    [discriminate|intros [= <-]; reflexivity].
Qed.

Lemma refresh_raises_no_device_error_witness :
  snd (_async_update_data (Concrete.runtime Sample.reloading) (Sample.skipped 10))
    = inr (UpdateFailed "Error communicating with device") /\
  is_BraviaError (UpdateFailed "Error communicating with device") = false.
Proof.
  split; [vm_compute; reflexivity|].
  apply (refresh_raises_no_device_error (Concrete.runtime Sample.reloading)
           (Sample.skipped 10)).
  vm_compute. reflexivity.
Defined.

(** X3: when the cycle fails with a device-API error other than
    [BraviaNotFound], it sets [is_on] and [connected] to false and changes
    nothing else; a connection error, a timeout and a turned-off signal
    end the cycle normally, any other error is raised as [UpdateFailed]
    with the message of the error. *)
Theorem refresh_device_errors :
  forall (rt : Runtime) (w w' : World) (k : bravia_error) (msg : string),
    update_body rt w = (w', inr (BraviaError k msg)) ->
    k <> BraviaNotFound ->
    _async_update_data rt w
      = (mkWorld (set_connected false (set_is_on false (coord w')))
           (log w') (clock_reads w'),
         match k with
         | BraviaConnectionError | BraviaConnectionTimeout | BraviaTurnedOff =>
             inl tt
         | _ => inr (UpdateFailed
                       ("Error communicating with device: " ++ msg)%string)
         end).
Proof.
  intros rt w w' k msg Hbody Hk. unfold _async_update_data, try_except.
  rewrite Hbody. destruct k; try congruence; reflexivity.
Qed.

Lemma refresh_device_errors_witness :
  _async_update_data (Concrete.runtime Sample2.unreachable) Sample.watching_tv
    = (mkWorld (set_connected false (set_is_on false (coord Sample.watching_tv)))
         (log Sample.watching_tv ++ [Called get_power_status]) 0, inl tt).
Proof.
  apply (refresh_device_errors (Concrete.runtime Sample2.unreachable)
           Sample.watching_tv
           (mkWorld (coord Sample.watching_tv)
              (log Sample.watching_tv ++ [Called get_power_status]) 0)
           BraviaConnectionError "down").
  - vm_compute. reflexivity.
  - discriminate.
Defined.

(** X4: rejected credentials.  When the coordinator is not connected and
    [connect] raises [BraviaAuthError], the cycle raises
    [ConfigEntryAuthFailed] after that one call and leaves every attribute,
    [is_on] included, as it was.  When a connected coordinator gets
    [BraviaAuthError] from the power query, the cycle raises [UpdateFailed]
    instead and marks the device off and disconnected. *)
Theorem auth_errors :
  forall (rt : Runtime) (w : World) (msg : string),
    (connected (coord w) = false ->
     client rt _ (log w) (connect_call (coord w))
       = inr (BraviaError BraviaAuthError msg) ->
     _async_update_data rt w
       = (mkWorld (coord w) (log w ++ [Called (connect_call (coord w))])
            (clock_reads w), inr ConfigEntryAuthFailed)) /\
    (connected (coord w) = true ->
     client rt _ (log w) get_power_status
       = inr (BraviaError BraviaAuthError msg) ->
     _async_update_data rt w
       = (mkWorld (set_connected false (set_is_on false (coord w)))
            (log w ++ [Called get_power_status]) (clock_reads w),
          inr (UpdateFailed ("Error communicating with device: " ++ msg)%string))).
Proof.
  intros rt w msg. split; intros Hconn Hc.
  - unfold _async_update_data, update_body, connect_call in *. run.
    rewrite Hconn. cbn [negb]. destruct (use_psk (coord w)); rewrite Hc;
      destruct w; reflexivity.
  - unfold _async_update_data, update_body. run.
    rewrite Hconn. cbn [negb]. run. rewrite Hc. reflexivity.
Qed.

Lemma auth_errors_witness :
  _async_update_data (Concrete.runtime Sample2.rejecting) (Concrete.fresh true)
    = (mkWorld (coord (Concrete.fresh true))
         [Called (connect_pin "0000" "client" "nick")] 0,
       inr ConfigEntryAuthFailed).
Proof.
  apply (proj1 (auth_errors (Concrete.runtime Sample2.rejecting)
                  (Concrete.fresh true) "401")); reflexivity.
Defined.

(** X5: a connected coordinator that has its system info and finds the
    power status other than "active" stops after the power query: [is_on]
    becomes false, [skipped_updates] zero, nothing else changes, and
    neither sources nor volume nor playback are asked for. *)
Theorem device_off_stops_cycle :
  forall (rt : Runtime) (w : World) (status : string),
    connected (coord w) = true ->
    system_info (coord w) <> [] ->
    client rt _ (log w) get_power_status = inl status ->
    status <> "active"%string ->
    _async_update_data rt w
      = (mkWorld (set_skipped_updates 0 (set_is_on false (coord w)))
           (log w ++ [Called get_power_status]) (clock_reads w), inl tt).
Proof.
  intros rt w status Hconn Hinfo Hc Hstatus.
  apply String.eqb_neq in Hstatus.
  unfold _async_update_data, update_body. run.
  rewrite Hconn. cbn [negb]. run. rewrite Hc. cbn. rewrite Hstatus.
  destruct (system_info (coord w)); [congruence|]. reflexivity.
Qed.

Lemma device_off_stops_cycle_witness :
  is_on (coord Sample.watching_tv) = true /\
  _async_update_data (Concrete.runtime Sample2.standby) Sample.watching_tv
    = (mkWorld (set_skipped_updates 0 (set_is_on false (coord Sample.watching_tv)))
         (log Sample.watching_tv ++ [Called get_power_status]) 0, inl tt).
Proof.
  split; [reflexivity|].
  apply (device_off_stops_cycle (Concrete.runtime Sample2.standby)
           Sample.watching_tv "standby");
    [reflexivity|discriminate|reflexivity|discriminate].
Defined.

(** ** What the refresh cycle asks for and what it keeps *)

Lemma stable_bind_self {B} (P : World -> Prop) (k : Coordinator -> M B) :
  (forall w0, P w0 -> stable P (k (coord w0))) -> stable P (bind self k).
Proof. intros Hk w H. unfold bind, self. exact (Hk w H w H). Qed.

Lemma stable_request_refresh (P : World -> Prop) :
  (forall w, P w ->
     P (mkWorld (coord w) (log w ++ [RefreshRequested]) (clock_reads w))) ->
  stable P async_request_refresh.
Proof. intros Hf w H. apply Hf, H. Qed.

Lemma appended_refl (ok : event -> bool) (w : World) : appended ok (log w) w.
Proof. exists []. rewrite app_nil_r. split; reflexivity. Qed.

Lemma appended_event (ok : event -> bool) (log0 : list event) (w : World)
    (ev : event) (s : Coordinator) (n : nat) :
  appended ok log0 w -> ok ev = true ->
  appended ok log0 (mkWorld s (log w ++ [ev]) n).
Proof.
  intros (l & Hl & Hok) Hev. exists (l ++ [ev]). cbn. rewrite Hl, <- app_assoc.
  split; [reflexivity|]. rewrite forallb_app, Hok. cbn. rewrite Hev. reflexivity.
Qed.

Lemma appended_same (ok : event -> bool) (log0 : list event) (w : World)
    (s : Coordinator) (n : nat) :
  appended ok log0 w -> appended ok log0 (mkWorld s (log w) n).
Proof. intros H. exact H. Qed.

(** [_sources_extend] writes [source_map] and [source_list] only. *)
Lemma sources_extend_item_frame kind add item s :
  sources_extend_item kind add item s
  = set_source_list (source_list (sources_extend_item kind add item s))
      (set_source_map (source_map (sources_extend_item kind add item s)) s).
Proof.
  unfold sources_extend_item.
  repeat match goal with
         | |- context [if ?b then _ else _] => destruct b
         | |- context [match ?x with Some _ => _ | None => _ end] => destruct x
         end; destruct s; reflexivity.
Qed.

Lemma extended_frame kind add items s :
  extended kind add items s
  = set_source_list (source_list (extended kind add items s))
      (set_source_map (source_map (extended kind add items s)) s).
Proof.
  revert s. induction items as [|item items IH]; intros s; cbn.
  - destruct s; reflexivity.
  - unfold extended in IH. rewrite IH at 1.
    rewrite (sources_extend_item_frame kind add item s) at 3. reflexivity.
Qed.

(** The handlers of [_async_update_data], one by one. *)
Ltac refresh_handlers H :=
  match type of H with
  | _ = Some ?h =>
      match goal with
      | e : exn |- _ =>
          destruct e as [[] ?| | | | | |]; try discriminate H;
          injection H as <-
      end
  end.

(** As [stable_step], with the property at hand when [self] is read. *)
Ltac stable_walk :=
  match goal with
  | |- stable _ (bind self _) => apply stable_bind_self; intros ? ?
  | |- stable _ async_request_refresh =>
      apply stable_request_refresh; intros ? ?
  | _ => stable_step
  end.

Section Queries.

Variable rt : Runtime.
Variable log0 : list event.

Let P := appended is_query log0.

Lemma sources_extend_queries sources kind add sort :
  stable P (_sources_extend sources kind add sort).
Proof.
  unfold _sources_extend. repeat stable_walk; assumption.
Qed.

Lemma refresh_queries : stable P (_async_update_data rt).
Proof.
  unfold _async_update_data. apply stable_try_except.
  - unfold update_body, async_update_sources, async_update_volume,
      async_update_playing.
    repeat first [apply sources_extend_queries | stable_walk];
      try assumption;
      try (apply appended_event; [assumption|reflexivity]).
    match goal with H : _ = Some _ |- _ =>
      destruct e as [[] ?| | | | | |]; try discriminate H; injection H as <-
    end.
    apply stable_raise.
  - intros e h He. refresh_handlers He; repeat stable_walk; assumption.
Qed.

End Queries.

(** X6: whatever the device answers, the refresh cycle only connects and
    queries: every event it adds to the log is a [connect] or a [get_...]
    call; it sends no command and requests no refresh. *)
Theorem refresh_only_queries :
  forall (rt : Runtime) (w : World),
    exists l,
      log (fst (_async_update_data rt w)) = log w ++ l /\
      forallb is_query l = true.
Proof.
  intros rt w. exact (refresh_queries rt (log w) w (appended_refl _ w)).
Qed.

Section CatalogKept.

Variable rt : Runtime.
Variable log0 : list event.
Variables (first : string * Entry) (rest : dict Entry) (sl : list string).

Let P (w : World) : Prop :=
  source_map (coord w) = first :: rest /\
  source_list (coord w) = sl /\
  appended (fun ev => negb (is_catalog_query ev)) log0 w.

Lemma refresh_keeps_catalog : stable P (_async_update_data rt).
Proof.
  unfold _async_update_data. apply stable_try_except.
  - unfold update_body, async_update_volume, async_update_playing.
    repeat first
      [ match goal with
        | H : P ?w0 |- context [source_map (coord ?w0)] =>
            rewrite (proj1 H); cbv iota
        end
      | stable_walk ];
      try assumption;
      try (match goal with
           | H : P _ |- _ =>
               destruct H as (Hmap & Hlist & Hlog);
               split; [exact Hmap|split; [exact Hlist|]];
               apply appended_event; [exact Hlog|reflexivity]
           end).
    match goal with H : _ = Some _ |- _ =>
      destruct e as [[] ?| | | | | |]; try discriminate H; injection H as <-
    end.
    apply stable_raise.
  - intros e h He. refresh_handlers He; repeat stable_walk; assumption.
Qed.

End CatalogKept.

(** X7: the catalog is built once.  When [source_map] is not empty at
    the start of a refresh cycle, the cycle, however it ends, leaves
    [source_map] and [source_list] as they were and makes none of the
    three catalog queries. *)
Theorem catalog_built_once :
  forall (rt : Runtime) (w : World),
    source_map (coord w) <> [] ->
    let w' := fst (_async_update_data rt w) in
    source_map (coord w') = source_map (coord w) /\
    source_list (coord w') = source_list (coord w) /\
    exists l,
      log w' = log w ++ l /\
      forallb (fun ev => negb (is_catalog_query ev)) l = true.
Proof.
  intros rt w Hne w'.
  destruct (source_map (coord w)) as [|first rest] eqn:Hmap; [congruence|].
  assert (H : source_map (coord w') = first :: rest /\
              source_list (coord w') = source_list (coord w) /\
              appended (fun ev => negb (is_catalog_query ev)) (log w) w').
  { apply (refresh_keeps_catalog rt (log w) first rest (source_list (coord w)) w).
    split; [exact Hmap|]. split; [reflexivity|apply appended_refl]. }
  exact H.
Qed.

Lemma catalog_built_once_witness :
  let w' := fst (_async_update_data (Concrete.runtime Sample.console_script)
                   Sample.newsroom) in
  source_map (coord w') = source_map (coord Sample.newsroom) /\
  source_list (coord w') = source_list (coord Sample.newsroom) /\
  log w' = log Sample.newsroom
           ++ [Called get_power_status; Called get_volume_info;
               Called get_playing_info].
Proof.
  intros w'.
  destruct (catalog_built_once (Concrete.runtime Sample.console_script)
              Sample.newsroom) as (Hmap & Hlist & _); [discriminate|].
  split; [exact Hmap|]. split; [exact Hlist|]. vm_compute. reflexivity.
Defined.

Section SystemInfoKept.

Variable rt : Runtime.
Variable log0 : list event.
Variables (first : string * string) (rest : list (string * string)).

Let P (w : World) : Prop :=
  system_info (coord w) = first :: rest /\
  appended (fun ev => negb (is_system_info_query ev)) log0 w.

Lemma sources_extend_keeps_info sources kind add sort :
  stable P (_sources_extend sources kind add sort).
Proof.
  intros w [Hinfo Hlog]. rewrite sources_extend_run.
  destruct (if truthy sort then _ else _); [|split; assumption].
  split; [|exact Hlog]. cbn. rewrite extended_frame. exact Hinfo.
Qed.

Lemma refresh_keeps_info : stable P (_async_update_data rt).
Proof.
  unfold _async_update_data. apply stable_try_except.
  - unfold update_body, async_update_sources, async_update_volume,
      async_update_playing.
    repeat first
      [ apply sources_extend_keeps_info
      | match goal with
        | H : P ?w0 |- context [system_info (coord ?w0)] =>
            rewrite (proj1 H); cbv iota
        end
      | stable_walk ];
      try assumption;
      try (match goal with
           | H : P _ |- _ =>
               destruct H as (Hinfo & Hlog);
               split; [exact Hinfo|];
               apply appended_event; [exact Hlog|reflexivity]
           end).
    match goal with H : _ = Some _ |- _ =>
      destruct e as [[] ?| | | | | |]; try discriminate H; injection H as <-
    end.
    apply stable_raise.
  - intros e h He. refresh_handlers He; repeat stable_walk; assumption.
Qed.

End SystemInfoKept.

(** X8: the system info is fetched once.  When [system_info] is not
    empty at the start of a refresh cycle, the cycle leaves it as it was
    and never calls [get_system_info]. *)
Theorem system_info_fetched_once :
  forall (rt : Runtime) (w : World),
    system_info (coord w) <> [] ->
    let w' := fst (_async_update_data rt w) in
    system_info (coord w') = system_info (coord w) /\
    exists l,
      log w' = log w ++ l /\
      forallb (fun ev => negb (is_system_info_query ev)) l = true.
Proof.
  intros rt w Hne w'.
  destruct (system_info (coord w)) as [|first rest] eqn:Hinfo; [congruence|].
  exact (refresh_keeps_info rt (log w) first rest w
           (conj Hinfo (appended_refl _ w))).
Qed.

Lemma system_info_fetched_once_witness :
  system_info
    (coord (fst (_async_update_data (Concrete.runtime Sample.console_script)
                   Sample.newsroom)))
  = system_info (coord Sample.newsroom).
Proof.
  destruct (system_info_fetched_once (Concrete.runtime Sample.console_script)
              Sample.newsroom) as (Hinfo & _); [discriminate|].
  exact Hinfo.
Defined.

(** ** Commands, further *)

(** X9: no command writes an attribute of the coordinator or reads the
    clock: after any of the sixteen decorated methods, however it ends,
    the coordinator is as before; only the log has grown. *)
Theorem commands_keep_state :
  forall (rt : Runtime) (c : command) (w : World),
    coord (fst (method_of rt c w)) = coord w /\
    clock_reads (fst (method_of rt c w)) = clock_reads w /\
    exists l, log (fst (method_of rt c w)) = log w ++ l.
Proof.
  intros rt c w.
  pose (P := fun w' : World =>
               coord w' = coord w /\ clock_reads w' = clock_reads w /\
               exists l, log w' = log w ++ l).
  assert (Hcalls : call_invariant P).
  { intros T c' w' (Hc & Hn & l & Hl). repeat split; [exact Hc|exact Hn|].
    exists (l ++ [Called c']). cbn. rewrite Hl, app_assoc. reflexivity. }
  assert (Hs : stable P (method_of rt c)).
  { rewrite method_of_wrapped. unfold catch_braviatv_errors.
    apply stable_bind.
    - apply stable_try_except; [apply wrapped_stable, Hcalls|].
      intros e h He. destruct (is_BraviaError e); [|discriminate].
      injection He as <-. apply stable_ret.
    - intros _. apply stable_request_refresh.
      intros w' (Hc & Hn & l & Hl). repeat split; [exact Hc|exact Hn|].
      exists (l ++ [RefreshRequested]). cbn. rewrite Hl, app_assoc.
      reflexivity. }
  apply Hs. repeat split. exists []. rewrite app_nil_r. reflexivity.
Qed.

Lemma sent_codes_app (l1 l2 : list event) :
  sent_codes (l1 ++ l2) = sent_codes l1 ++ sent_codes l2.
Proof.
  induction l1 as [|[T c|] l1 IH]; cbn; [reflexivity| |exact IH].
  destruct c; cbn; rewrite IH; reflexivity.
Qed.

Section SendCommand.

Variable rt : Runtime.
Hypothesis send_answers :
  forall h cmd, exists b, client rt bool h (send_command cmd) = inl b.
Hypothesis list_answers :
  forall h, exists l, client rt (list string) h get_command_list = inl l.

Let body (cmd : string) : M unit :=
  response <- await rt (send_command cmd) ;;
  if negb response then
    commands <- await rt get_command_list ;;
    pass
  else pass.

Lemma send_one cmd w :
  exists w',
    body cmd w = (w', inl tt) /\
    sent_codes (log w') = sent_codes (log w) ++ [cmd] /\
    refresh_count (log w') = refresh_count (log w).
Proof.
  unfold body. run.
  destruct (send_answers (log w) cmd) as [[|] ->]; cbn.
  - eexists. split; [reflexivity|]. cbn.
    rewrite sent_codes_app, refresh_count_app. cbn. split; [reflexivity|lia].
  - destruct (list_answers (log w ++ [Called (send_command cmd)])) as [l ->].
    eexists. split; [reflexivity|]. cbn.
    rewrite !sent_codes_app, !refresh_count_app. cbn.
    rewrite app_nil_r. split; [reflexivity|lia].
Qed.

Lemma send_each command w :
  exists w',
    for_each command body w = (w', inl tt) /\
    sent_codes (log w') = sent_codes (log w) ++ command /\
    refresh_count (log w') = refresh_count (log w).
Proof.
  revert w. induction command as [|cmd command IH]; intros w.
  - exists w. cbn. rewrite app_nil_r. auto.
  - destruct (send_one cmd w) as (w1 & Hrun1 & Hsent1 & Hcount1).
    destruct (IH w1) as (w2 & Hrun2 & Hsent2 & Hcount2).
    exists w2. cbn [for_each]. unfold bind at 1. rewrite Hrun1, Hrun2.
    rewrite Hsent2, Hsent1, <- app_assoc, Hcount2, Hcount1. auto.
Qed.

Lemma send_repeatedly command n w :
  exists w',
    repeat_times n (for_each command body) w = (w', inl tt) /\
    sent_codes (log w')
      = sent_codes (log w) ++ List.concat (repeat command n) /\
    refresh_count (log w') = refresh_count (log w).
Proof.
  revert w. induction n as [|n IH]; intros w.
  - exists w. cbn. rewrite app_nil_r. auto.
  - destruct (send_each command w) as (w1 & Hrun1 & Hsent1 & Hcount1).
    destruct (IH w1) as (w2 & Hrun2 & Hsent2 & Hcount2).
    exists w2. cbn [repeat_times repeat List.concat]. unfold bind at 1.
    rewrite Hrun1, Hrun2.
    rewrite Hsent2, Hsent1, <- app_assoc, Hcount2, Hcount1. auto.
Qed.

End SendCommand.

(** X10: when the client answers every [send_command] and
    [get_command_list] without raising, [async_send_command] sends every
    code of the list, in order, once per repeat, whether or not the device
    supports it, then requests one refresh and returns; with a repeat
    count of zero or less it sends nothing. *)
Theorem send_command_sends_all :
  forall (rt : Runtime) (command : list string) (repeats : Z) (w : World),
    (forall h cmd, exists b, client rt bool h (send_command cmd) = inl b) ->
    (forall h, exists l, client rt (list string) h get_command_list = inl l) ->
    exists w',
      async_send_command rt command repeats w = (w', inl tt) /\
      sent_codes (log w')
        = sent_codes (log w) ++ List.concat (repeat command (Z.to_nat repeats)) /\
      (repeats <= 0 -> sent_codes (log w') = sent_codes (log w)) /\
      refresh_count (log w') = S (refresh_count (log w)).
Proof.
  intros rt command repeats w Hsend Hlist.
  destruct (send_repeatedly rt Hsend Hlist command (Z.to_nat repeats) w)
    as (w1 & Hrun & Hsent & Hcount).
  unfold async_send_command, catch_braviatv_errors,
    async_send_command__wrapped.
  unfold bind at 1. unfold try_except. rewrite Hrun.
  eexists. split; [reflexivity|]. cbn [log].
  rewrite sent_codes_app, refresh_count_app, Hsent, Hcount. cbn.
  rewrite app_nil_r. split; [reflexivity|]. split; [|lia].
  intros Hle. replace (Z.to_nat repeats) with 0%nat by lia.
  cbn. rewrite app_nil_r. reflexivity.
Qed.

Lemma send_command_sends_all_witness :
  exists w',
    async_send_command (Concrete.runtime Sample2.no_codes)
      ["Up"; "Confirm"]%string 2 (Concrete.fresh true) = (w', inl tt) /\
    sent_codes (log w') = ["Up"; "Confirm"; "Up"; "Confirm"]%string.
Proof.
  destruct (send_command_sends_all (Concrete.runtime Sample2.no_codes)
              ["Up"; "Confirm"]%string 2 (Concrete.fresh true))
    as (w' & Hrun & Hsent & _).
  - intros h cmd. exists false. reflexivity.
  - intros h. exists ["PowerOff"; "VolumeUp"]%string. reflexivity.
  - exists w'. split; [exact Hrun|exact Hsent].
Defined.

(** ** The source resolver, further *)

Lemma source_start_world (rt : Runtime) (uri kind : string) (w : World) :
  fst (async_source_start rt uri kind w)
  = mkWorld (coord w) (log w ++ [dispatch_call kind uri]) (clock_reads w).
Proof.
  unfold async_source_start, dispatch_call.
  destruct (kind =? SourceType.APP)%string; reflexivity.
Qed.

Section NumericSearch.

Variable rt : Runtime.
Variables (labels : bool) (query kind : string) (q : Z).
Hypothesis query_value : int_of_str rt query = Some q.

(** The loop of [async_source_find] on display numbers: it leaves at the
    first entry of the kind whose number equals the query and never
    notes a fallback. *)
Lemma source_find_loop_numbers (items : dict Entry) :
  display_numbers_ok rt kind items = true ->
  forall (coarse : option string) (w : World),
    source_find_loop rt labels query kind true items coarse w
    = match find (numeric_match rt q kind) items with
      | Some (uri, _) => (async_source_start rt uri kind ;; ret Returned) w
      | None => (w, inl (Finished coarse))
      end.
Proof.
  induction items as [|[uri item] rest IH]; intros Hok coarse w.
  - reflexivity.
  - cbn [display_numbers_ok forallb fst snd] in Hok.
    apply andb_prop in Hok as [Hhd Hok]. specialize (IH Hok).
    cbn [source_find_loop find]. unfold numeric_match at 1. cbn [fst snd].
    destruct (e_type item =? kind)%string; cbn [andb negb orb] in *;
      [|apply IH].
    destruct (get (i_dispNum (e_item item))) as [num|]; [|apply IH].
    destruct (truthy (Some num)); cbn [andb negb orb] in *; [|apply IH].
    unfold py_int. rewrite query_value.
    destruct (int_of_str rt num) as [n|]; [|discriminate Hhd].
    unfold bind at 1 2. unfold ret at 1 2.
    destruct (q =? n); [reflexivity|apply IH].
Qed.

End NumericSearch.

(** X11: a numeric query of kind CHANNEL is resolved on display numbers
    alone.  When the query and the display numbers of the channel entries
    read as integers, the resolver plays the first channel entry in
    insertion order whose display number equals the query as an integer;
    when there is none it raises its not-found error without any call:
    there is no fallback to titles or substrings. *)
Theorem numeric_channel_search :
  forall (rt : Runtime) (query kind : string) (q : Z) (w : World),
    is_uri query = false ->
    numeric_search rt query kind = true ->
    int_of_str rt query = Some q ->
    display_numbers_ok rt kind (source_map (coord w)) = true ->
    kind = SourceType.CHANNEL /\
    async_source_find rt query kind w
    = match find (numeric_match rt q kind) (source_map (coord w)) with
      | Some (uri, _) => await rt (set_play_content uri) w
      | None => (w, inr (ValueError ("Not found " ++ kind ++ ": " ++ query)%string))
      end.
Proof.
  intros rt query kind q w Huri Hnum Hq Hok.
  assert (Hkind : kind = SourceType.CHANNEL).
  { unfold numeric_search in Hnum. apply andb_prop in Hnum as [Hk _].
    apply String.eqb_eq, Hk. }
  split; [exact Hkind|].
  unfold async_source_find. unfold is_uri in Huri. rewrite Huri.
  unfold numeric_search in Hnum. rewrite Hnum.
  unfold bind at 1. unfold self at 1. unfold bind at 1.
  rewrite (source_find_loop_numbers rt _ query kind q Hq _ Hok).
  destruct (find _ (source_map (coord w))) as [[uri e]|]; [|reflexivity].
  assert (Happ : (kind =? SourceType.APP)%string = false)
    by (rewrite Hkind; reflexivity).
  unfold async_source_start. rewrite Happ. unfold bind, ret.
  destruct (await rt (set_play_content uri) w) as [w' [[]|err]]; reflexivity.
Qed.

Lemma numeric_channel_search_witness :
  async_source_find (Concrete.runtime Sample.newsroom_script) "07"
    SourceType.CHANNEL Sample.newsroom
  = (mkWorld (coord Sample.newsroom)
       (log Sample.newsroom ++ [Called (set_play_content "tv:dvbt?trip=1.2.3")])
       0, inl tt).
Proof.
  destruct (numeric_channel_search (Concrete.runtime Sample.newsroom_script)
              "07" SourceType.CHANNEL 7 Sample.newsroom) as [_ Hrun];
    [vm_compute; reflexivity ..|].
  rewrite Hrun. vm_compute. reflexivity.
Defined.

Section Dispatch.

Variable rt : Runtime.
Variables (labels : bool) (query kind : string) (numeric : bool).
Variable catalog : dict Entry.

(** The uri names an entry of the catalog of the kind asked for. *)
Let of_kind (uri : string) : Prop :=
  exists e, In (uri, e) catalog /\ e_type e = kind.

Lemma source_find_loop_dispatch (items : dict Entry) :
  incl items catalog ->
  forall (coarse : option string) (w : World),
    (forall uri, coarse = Some uri -> of_kind uri) ->
    match source_find_loop rt labels query kind numeric items coarse w with
    | (w', inl Returned) =>
        exists uri,
          of_kind uri /\
          w' = mkWorld (coord w) (log w ++ [dispatch_call kind uri])
                 (clock_reads w)
    | (w', inl (Finished c)) =>
        w' = w /\ (forall uri, c = Some uri -> of_kind uri)
    | (w', inr _) =>
        w' = w \/
        exists uri,
          of_kind uri /\
          w' = mkWorld (coord w) (log w ++ [dispatch_call kind uri])
                 (clock_reads w)
    end.
Proof.
  induction items as [|[uri item] rest IH]; intros Hincl coarse w Hcoarse.
  - cbn. auto.
  - assert (Hrest : incl rest catalog).
    { intros x Hx. apply Hincl. right. exact Hx. }
    assert (Hhead : In (uri, item) catalog).
    { apply Hincl. left. reflexivity. }
    specialize (IH Hrest).
    cbn [source_find_loop].
    destruct (String.eqb_spec (e_type item) kind) as [Hkind|_];
      [|apply IH, Hcoarse].
    assert (Hof : of_kind uri) by (exists item; auto).
    assert (Hdispatch :
              match (async_source_start rt uri kind ;; ret Returned) w with
              | (w', inl Returned) =>
                  exists uri,
                    of_kind uri /\
                    w' = mkWorld (coord w) (log w ++ [dispatch_call kind uri])
                           (clock_reads w)
              | (w', inl (Finished c)) =>
                  w' = w /\ (forall uri, c = Some uri -> of_kind uri)
              | (w', inr _) =>
                  w' = w \/
                  exists uri,
                    of_kind uri /\
                    w' = mkWorld (coord w) (log w ++ [dispatch_call kind uri])
                           (clock_reads w)
              end).
    { pose proof (source_start_world rt uri kind w) as Hw.
      unfold bind, ret.
      destruct (async_source_start rt uri kind w) as [w' [[]|err]];
        cbn [fst] in Hw; [|right]; exists uri; auto. }
    destruct numeric.
    + destruct (get (i_dispNum (e_item item))) as [num|];
        [|apply IH, Hcoarse].
      destruct (truthy (Some num)); [|apply IH, Hcoarse].
      unfold py_int.
      destruct (int_of_str rt query) as [q|]; [|cbn; auto].
      destruct (int_of_str rt num) as [n|]; [|cbn; auto].
      unfold bind at 1 2. unfold ret at 1 2.
      destruct (q =? n); [exact Hdispatch|apply IH, Hcoarse].
    + destruct (if labels && truthy (get (i_label (e_item item)))
                then get (i_label (e_item item))
                else get (i_title (e_item item))) as [title|]; [|cbn; auto].
      destruct (str_lower rt query =? str_lower rt title)%string;
        [exact Hdispatch|].
      destruct (contains (str_lower rt query) (str_lower rt title));
        [|apply IH, Hcoarse].
      apply IH. intros uri' [= <-]. exact Hof.
Qed.

End Dispatch.

(** X12: the resolver makes at most one call, and only for an entry of the
    kind asked for.  A query with a uri prefix is dispatched as it is.
    For any other query the world after [async_source_find] is either the
    world before, or the world before plus one dispatch call for the uri
    of a catalog entry of the requested kind; when the method returns
    normally it is the latter. *)
Theorem resolver_dispatches_kind :
  forall (rt : Runtime) (query kind : string) (w : World),
    let w' := fst (async_source_find rt query kind w) in
    let played uri :=
      mkWorld (coord w) (log w ++ [dispatch_call kind uri]) (clock_reads w) in
    (is_uri query = true -> w' = played query) /\
    (is_uri query = false ->
     (w' = w \/
      exists uri e,
        In (uri, e) (source_map (coord w)) /\ e_type e = kind /\
        w' = played uri) /\
     (snd (async_source_find rt query kind w) = inl tt ->
      exists uri e,
        In (uri, e) (source_map (coord w)) /\ e_type e = kind /\
        w' = played uri)).
Proof.
  intros rt query kind w w' played. subst w' played. split.
  - intros Huri. unfold async_source_find. unfold is_uri in Huri.
    rewrite Huri. apply source_start_world.
  - intros Huri. unfold async_source_find. unfold is_uri in Huri.
    rewrite Huri. unfold bind, self. cbv beta iota.
    set (numeric := (kind =? SourceType.CHANNEL)%string && str_isnumeric rt query).
    assert (Hnone : forall uri, @None string = Some uri ->
                      exists e, In (uri, e) (source_map (coord w)) /\
                                e_type e = kind) by discriminate.
    pose proof (source_find_loop_dispatch rt (enable_user_labels (coord w))
                  query kind numeric (source_map (coord w))
                  (source_map (coord w)) (incl_refl _) None w Hnone) as Hloop.
    destruct (source_find_loop rt (enable_user_labels (coord w)) query kind
                numeric (source_map (coord w)) None w) as [w1 [[|c]|err]];
      cbn [fst snd].
    + destruct Hloop as (uri & (e & Hin & Hkind) & ->).
      split; [right|intros _]; exists uri, e; auto.
    + destruct Hloop as [-> Hc].
      destruct c as [uri|]; [|split; [left; reflexivity|discriminate]].
      destruct (truthy (Some uri));
        [|split; [left; reflexivity|discriminate]].
      destruct (Hc uri eq_refl) as (e & Hin & Hkind).
      rewrite source_start_world.
      split; [right|intros _]; exists uri, e; auto.
    + destruct Hloop as [->|(uri & (e & Hin & Hkind) & ->)].
      * split; [left; reflexivity|discriminate].
      * split; [right; exists uri, e; auto|discriminate].
Qed.

Lemma resolver_dispatches_kind_witness :
  let rt := Concrete.runtime Sample.newsroom_script in
  fst (async_source_find rt "tv:dvbt?trip=9" SourceType.CHANNEL Sample.newsroom)
    = mkWorld (coord Sample.newsroom)
        (log Sample.newsroom ++ [Called (set_play_content "tv:dvbt?trip=9")]) 0 /\
  exists uri e,
    In (uri, e) (source_map (coord Sample.newsroom)) /\
    e_type e = SourceType.INPUT /\
    fst (async_source_find rt "comedy" SourceType.INPUT Sample.newsroom)
      = mkWorld (coord Sample.newsroom)
          (log Sample.newsroom ++ [dispatch_call SourceType.INPUT uri]) 0.
Proof.
  intros rt. split.
  - apply (proj1 (resolver_dispatches_kind rt "tv:dvbt?trip=9"
                    SourceType.CHANNEL Sample.newsroom)).
    vm_compute. reflexivity.
  - apply (proj2 (resolver_dispatches_kind rt "comedy" SourceType.INPUT
                    Sample.newsroom)); vm_compute; reflexivity.
Defined.

(** ** The source catalog, further *)

Lemma dict_get_set_other {V} (d : dict V) (k k' : string) (v : V) :
  k <> k' -> dict_get (dict_set d k v) k' = dict_get d k'.
Proof.
  intros Hne. induction d as [|[k0 v0] d IH]; cbn.
  - destruct (String.eqb_spec k' k); [congruence|reflexivity].
  - destruct (String.eqb_spec k k0) as [->|Hk]; cbn.
    + destruct (String.eqb_spec k' k0); [congruence|reflexivity].
    + destruct (String.eqb_spec k' k0); [reflexivity|exact IH].
Qed.

Lemma dict_mem_keys {V} (d : dict V) (k : string) :
  dict_mem d k = mem k (keys d).
Proof.
  unfold dict_mem, keys. induction d as [|[k0 v0] d IH]; cbn; [reflexivity|].
  destruct (k =? k0)%string; [reflexivity|exact IH].
Qed.

Lemma forallb_dict_set {V} (ok : string * V -> bool) (d : dict V)
    (k : string) (v : V) :
  forallb ok d = true -> ok (k, v) = true -> forallb ok (dict_set d k v) = true.
Proof.
  intros Hd Hv. induction d as [|[k0 v0] d IH]; cbn in *.
  - rewrite Hv. reflexivity.
  - apply andb_prop in Hd as [H0 Hd].
    destruct (String.eqb_spec k k0) as [->|Hk]; cbn.
    + rewrite Hv, Hd. reflexivity.
    + rewrite H0, (IH Hd). reflexivity.
Qed.

Lemma distinct_from_app (seen l1 l2 : list string) :
  distinct_from seen (l1 ++ l2) = distinct_from (distinct_from seen l1) l2.
Proof.
  revert seen. induction l1 as [|x l1 IH]; intros seen; cbn; [reflexivity|].
  apply IH.
Qed.

Lemma catalog_wf_ok (labels : bool) (sm : dict Entry) :
  catalog_wf labels sm = true -> catalog_ok labels sm = true.
Proof.
  unfold catalog_wf, catalog_ok. rewrite !forallb_forall.
  intros H ue Hin. specialize (H ue Hin). unfold entry_wf in H.
  apply andb_prop in H as [H _]. apply andb_prop in H as [H _]. exact H.
Qed.

Section ExtendedFurther.

Variables (kind : string) (add : bool).

Lemma sources_extend_item_lookup item s u :
  dict_get (source_map (sources_extend_item kind add item s)) u
  = if kept_under (enable_user_labels s) u item
    then Some (mkEntry item kind)
    else dict_get (source_map s) u.
Proof.
  destruct (sources_extend_item_spec kind add item s) as (_ & Hskip & Hkeep).
  unfold kept_under.
  destruct (valid_item (enable_user_labels s) item) eqn:Hvalid; cbn [andb].
  - destruct (valid_item_fields _ _ Hvalid) as (t & u' & Ht & Hu).
    destruct (Hkeep t u' eq_refl Ht Hu) as [-> _]. rewrite Hu.
    destruct (String.eqb_spec u' u) as [->|Hne].
    + apply dict_get_set.
    + apply dict_get_set_other, Hne.
  - destruct (Hskip eq_refl) as [-> _]. reflexivity.
Qed.

Lemma extended_lookup items s u :
  dict_get (source_map (extended kind add items s)) u
  = match find_last (kept_under (enable_user_labels s) u) items with
    | Some item => Some (mkEntry item kind)
    | None => dict_get (source_map s) u
    end.
Proof.
  revert s. induction items as [|item items IH]; intros s; [reflexivity|].
  cbn [extended fold_left find_last]. unfold extended in IH. rewrite IH.
  rewrite (proj1 (sources_extend_item_spec kind add item s)).
  destruct (find_last _ items); [reflexivity|].
  rewrite sources_extend_item_lookup.
  destruct (kept_under _ u item); reflexivity.
Qed.

Lemma extended_keys_added items s :
  keys (source_map (extended kind add items s))
  = distinct_from (keys (source_map s))
      (kept_uris (enable_user_labels s) items).
Proof.
  revert s. induction items as [|item items IH]; intros s; [reflexivity|].
  cbn [extended fold_left kept_uris flat_map]. unfold extended in IH.
  rewrite IH.
  destruct (sources_extend_item_spec kind add item s) as (Hlab & Hskip & Hkeep).
  cbn zeta in Hlab. rewrite Hlab.
  destruct (valid_item (enable_user_labels s) item) eqn:Hvalid.
  - destruct (valid_item_fields _ _ Hvalid) as (t & u & Ht & Hu).
    destruct (Hkeep t u eq_refl Ht Hu) as [-> _]. rewrite Hu.
    cbn [app distinct_from]. rewrite keys_dict_set, dict_mem_keys.
    reflexivity.
  - destruct (Hskip eq_refl) as [-> _]. reflexivity.
Qed.

Hypothesis kind_known :
  mem kind [SourceType.INPUT; SourceType.APP; SourceType.CHANNEL] = true.

Lemma sources_extend_item_wf item s :
  catalog_wf (enable_user_labels s) (source_map s) = true ->
  catalog_wf (enable_user_labels s)
    (source_map (sources_extend_item kind add item s)) = true.
Proof.
  intros Hwf.
  destruct (sources_extend_item_spec kind add item s) as (_ & Hskip & Hkeep).
  destruct (valid_item (enable_user_labels s) item) eqn:Hvalid.
  - destruct (valid_item_fields _ _ Hvalid) as (t & u & Ht & Hu).
    destruct (Hkeep t u eq_refl Ht Hu) as [-> _].
    apply forallb_dict_set; [exact Hwf|].
    unfold entry_wf. cbn [fst snd e_item e_type].
    unfold valid_item in Hvalid. rewrite Hu in *.
    apply andb_prop in Hvalid as [-> ->].
    rewrite String.eqb_refl, kind_known. reflexivity.
  - destruct (Hskip eq_refl) as [-> _]. exact Hwf.
Qed.

Lemma extended_wf items s :
  catalog_wf (enable_user_labels s) (source_map s) = true ->
  catalog_wf (enable_user_labels s)
    (source_map (extended kind add items s)) = true.
Proof.
  revert s. induction items as [|item items IH]; intros s Hwf; [exact Hwf|].
  cbn [extended fold_left]. unfold extended in IH.
  rewrite <- (proj1 (sources_extend_item_spec kind add item s)).
  apply IH. rewrite (proj1 (sources_extend_item_spec kind add item s)).
  apply sources_extend_item_wf, Hwf.
Qed.

End ExtendedFurther.

(** X13: lookup after [_sources_extend].  The items are taken in the
    order given, or in the order of [sorted] by the sort key when there
    is one.  For every uri, [source_map] then holds the last item in that
    order that has a display title and that uri, tagged with the source
    type; a uri no kept item carries looks up as before, and so does
    every uri when the sort raises. *)
Theorem sources_extend_lookup :
  forall (items : list Item) (kind : string) (add : bool)
         (sort_by : option string) (w : World) (u : string),
    let taken :=
      match sort_by with
      | Some k =>
          if (k =? "")%string then Some items
          else sorted (fun d => get_or (item_field k d) (Some ""%string)) items
      | None => Some items
      end in
    dict_get
      (source_map (coord (fst (_sources_extend items kind add sort_by w)))) u
    = match taken with
      | Some l =>
          match find_last (kept_under (enable_user_labels (coord w)) u) l with
          | Some item => Some (mkEntry item kind)
          | None => dict_get (source_map (coord w)) u
          end
      | None => dict_get (source_map (coord w)) u
      end.
Proof.
  intros items kind add sort_by w u taken. subst taken.
  rewrite sources_extend_run.
  destruct sort_by as [k|]; cbn [truthy].
  - destruct (k =? "")%string; cbn [negb].
    + cbn [fst coord]. apply extended_lookup.
    + destruct (sorted _ items) as [l|]; [|reflexivity].
      cbn [fst coord]. apply extended_lookup.
  - cbn [fst coord]. apply extended_lookup.
Qed.

Lemma sources_extend_lookup_witness :
  let b := mkItem (Val "B") Missing (Val "x") Missing in
  let a := mkItem (Val "A") Missing (Val "x") Missing in
  let after sort_by :=
    coord (fst (_sources_extend [b; a] SourceType.APP false sort_by
                  (Concrete.fresh true))) in
  dict_get (source_map (after None)) "x" = Some (mkEntry a SourceType.APP) /\
  dict_get (source_map (after (Some "title"))) "x"
    = Some (mkEntry b SourceType.APP) /\
  dict_get (source_map (after (Some "title"))) "y" = None.
Proof.
  intros b a after. subst after.
  pose proof (sources_extend_lookup [b; a] SourceType.APP false None
                (Concrete.fresh true) "x") as Hgiven.
  pose proof (sources_extend_lookup [b; a] SourceType.APP false (Some "title")
                (Concrete.fresh true) "x") as Hsorted.
  pose proof (sources_extend_lookup [b; a] SourceType.APP false (Some "title")
                (Concrete.fresh true) "y") as Hother.
  cbv zeta in Hgiven, Hsorted, Hother. cbv beta.
  rewrite Hgiven, Hsorted, Hother. vm_compute. repeat split.
Defined.

Lemma sources_extend_wf sources kind add sort :
  mem kind [SourceType.INPUT; SourceType.APP; SourceType.CHANNEL] = true ->
  stable catalog_wf_at (_sources_extend sources kind add sort).
Proof.
  intros Hkind w H. rewrite sources_extend_run.
  destruct (if truthy sort then _ else _); [|exact H].
  unfold catalog_wf_at. cbn [fst coord]. rewrite extended_labels.
  apply extended_wf; assumption.
Qed.

Lemma update_sources_wf (rt : Runtime) :
  stable catalog_wf_at (async_update_sources rt).
Proof.
  unfold async_update_sources.
  repeat first [apply sources_extend_wf; reflexivity | stable_walk];
    first [assumption | reflexivity].
Qed.

Lemma refresh_wf (rt : Runtime) : stable catalog_wf_at (_async_update_data rt).
Proof.
  unfold _async_update_data. apply stable_try_except.
  - unfold update_body, async_update_volume, async_update_playing.
    repeat first
      [ match goal with
        | |- stable _ (async_update_sources _) => apply update_sources_wf
        end
      | stable_walk ];
      try assumption.
    match goal with H : _ = Some _ |- _ =>
      destruct e as [[] ?| | | | | |]; try discriminate H; injection H as <-
    end.
    apply stable_raise.
  - intros e h He. refresh_handlers He; repeat stable_walk; assumption.
Qed.

(** X14: the catalog is always well formed.  After a catalog build, from
    any state and however the build ends, every entry of [source_map] is
    keyed by the non-empty uri of its own item, has a non-empty display
    title and is of kind INPUT, APP or CHANNEL; and a refresh cycle that
    starts with such a catalog ends with such a catalog.  In particular
    the resolver never meets an entry without a display title. *)
Theorem catalog_well_formed :
  forall (rt : Runtime) (w : World),
    let built := fst (async_update_sources rt w) in
    let w' := fst (_async_update_data rt w) in
    catalog_wf (enable_user_labels (coord built)) (source_map (coord built))
      = true /\
    catalog_ok (enable_user_labels (coord built)) (source_map (coord built))
      = true /\
    (catalog_wf (enable_user_labels (coord w)) (source_map (coord w)) = true ->
     catalog_wf (enable_user_labels (coord w')) (source_map (coord w')) = true /\
     catalog_ok (enable_user_labels (coord w')) (source_map (coord w')) = true).
Proof.
  intros rt w built w'.
  assert (Hbuilt : catalog_wf_at built).
  { subst built. unfold async_update_sources. rewrite !bind_assign. cbv beta.
    match goal with
    | |- catalog_wf_at (fst (?m ?w0)) =>
        assert (Hs : stable catalog_wf_at m); [|apply Hs; reflexivity]
    end.
    repeat first [apply sources_extend_wf; reflexivity | stable_walk];
      assumption. }
  split; [exact Hbuilt|]. split; [apply catalog_wf_ok, Hbuilt|].
  intros Hw. pose proof (refresh_wf rt w Hw) as Hw'.
  split; [exact Hw'|apply catalog_wf_ok, Hw'].
Qed.

Lemma catalog_well_formed_witness :
  let w' := fst (_async_update_data (Concrete.runtime Sample.console_script)
                   (Concrete.fresh true)) in
  source_map (coord w') <> [] /\
  catalog_wf (enable_user_labels (coord w')) (source_map (coord w')) = true.
Proof.
  intros w'. split; [vm_compute; discriminate|].
  apply (catalog_well_formed (Concrete.runtime Sample.console_script)
           (Concrete.fresh true)).
  reflexivity.
Defined.

(** X15: the order of the catalog.  When the three queries are answered
    and the apps can be sorted, the keys of [source_map] after the build
    are the uris of the kept items in this order: the inputs as the device
    lists them, the apps as [sorted] by title lists them, the channels as
    the device lists them; a uri met again keeps its first place. *)
Theorem catalog_order :
  forall (rt : Runtime) (w : World) (inputs apps apps' channels : list Item),
    client rt _ (log w) get_external_status = inl inputs ->
    client rt _ (log w ++ [Called get_external_status]) get_app_list = inl apps ->
    client rt _ (log w ++ [Called get_external_status; Called get_app_list])
      (get_content_list_all "tv") = inl channels ->
    sorted (fun d => get_or (item_field "title" d) (Some ""%string)) apps
      = Some apps' ->
    let labels := enable_user_labels (coord w) in
    keys (source_map (coord (fst (async_update_sources rt w))))
    = distinct_from []
        (kept_uris labels inputs ++ kept_uris labels apps'
         ++ kept_uris labels channels).
Proof.
  intros rt w inputs apps apps' channels Hinputs Happs Hchannels Hsorted labels.
  rewrite (update_sources_answered rt w inputs apps channels
             Hinputs Happs Hchannels).
  rewrite Hsorted. cbn [fst coord].
  rewrite !extended_keys_added, !extended_labels, !distinct_from_app.
  reflexivity.
Qed.

Lemma catalog_order_witness :
  keys (source_map
          (coord (fst (async_update_sources
                         (Concrete.runtime Sample.console_script)
                         (Concrete.fresh true)))))
  = ["extInput:hdmi?port=1"; "extInput:hdmi?port=2"; "extInput:hdmi?port=3";
     "com.sony.dtv.alpha"; "com.sony.dtv.zeta"; "tv:dvbt?trip=1.2.3"]%string.
Proof.
  rewrite (catalog_order (Concrete.runtime Sample.console_script)
             (Concrete.fresh true) _ _ _ _ eq_refl eq_refl eq_refl eq_refl).
  vm_compute. reflexivity.
Defined.

(** ** Playback state, further *)

(** Splits on the start timestamp of the payload and runs the deriver up
    to the test for an empty payload. *)
Ltac playing_start Hc Hts :=
  unfold async_update_playing;
  unfold bind at 1; unfold await at 1; rewrite Hc;
  unfold timestamp_ok in Hts;
  match goal with
  | |- context [get (p_startDateTime ?p)] =>
      let s := fresh "s" in
      let Hs := fresh "Hs" in
      let Hst := fresh "Hst" in
      let Hf := fresh "Hf" in
      destruct (get (p_startDateTime p)) as [s|] eqn:Hs;
        [destruct (truthy (Some s)) eqn:Hst;
           [destruct (fromisoformat _ s) as [?t|] eqn:Hf; [|discriminate Hts]|]|]
  end;
  run; cbn.

Ltac break_ifs :=
  repeat match goal with
         | |- context [if ?b then _ else _] => destruct b eqn:?
         | |- context [match ?x with Some _ => _ | None => _ end] =>
             destruct x eqn:?
         end.

(** What the deriver leaves in the attributes that do not depend on
    labels. *)
Lemma playing_outcome :
  forall (rt : Runtime) (w : World) (p : PlayingInfo),
    client rt _ (log w) get_playing_info = inl p ->
    timestamp_ok rt p = true ->
    exists w',
      async_update_playing rt w = (w', inl tt) /\
      media_uri (coord w') = get (p_uri p) /\
      media_duration (coord w') = get (p_durationSec p) /\
      media_content_type (coord w')
        = (if playing_info_empty p then Some MediaType.APP
           else if plays_tv p then Some MediaType.CHANNEL else None) /\
      media_content_id (coord w')
        = (if playing_info_empty p then None
           else if plays_tv p then get (p_dispNum p)
           else if truthy (get (p_uri p)) then get (p_uri p) else None) /\
      media_channel (coord w')
        = (if playing_info_empty p then None
           else if plays_tv p
                then or_else (get (p_title p)) (get (p_dispNum p))
                else None) /\
      media_position (coord w')
        = match get (p_startDateTime p) with
          | Some s =>
              if truthy (Some s) then
                match fromisoformat rt s with
                | Some t => Some (total_seconds_int (now rt (clock_reads w) - t))
                | None => None
                end
              else None
          | None => None
          end /\
      media_position_updated_at (coord w')
        = (if truthy (get (p_startDateTime p))
           then Some (now rt (S (clock_reads w))) else None) /\
      clock_reads w'
        = (if truthy (get (p_startDateTime p))
           then S (S (clock_reads w)) else clock_reads w).
Proof.
  intros rt w p Hc Hts. unfold plays_tv.
  destruct (get (p_uri p)) as [u|] eqn:Hu.
  - pose proof (uri_not_empty _ _ Hu) as Hne.
    destruct (startswith u "tv") eqn:Htv.
    + pose proof (tv_not_extInput _ Htv) as Hext.
      assert (Htr : truthy (Some u) = true)
        by (apply (truthy_startswith u "tv"); [discriminate|assumption]).
      playing_start Hc Hts; rewrite Hne; cbn; rewrite Hu, Htr, Hext, Htv; cbn;
        eexists; repeat split.
    + playing_start Hc Hts; rewrite Hne; cbn; rewrite Hu, Htv; cbn;
        destruct (truthy (Some u)) eqn:Htr; cbn; cbn in Htr; rewrite ?Htr;
        break_ifs; cbn; try discriminate; eexists; repeat split.
  - playing_start Hc Hts; rewrite ?Hu;
      destruct (playing_info_empty p); cbn; rewrite ?Hu; cbn;
      break_ifs; cbn; try discriminate; eexists; repeat split.
Qed.

(** X16: content type and content id after the deriver.  When the
    deriver returns, the content type is APP for an empty payload, CHANNEL
    for a uri that starts with "tv" and unset otherwise; the content id is
    unset for an empty payload, the display number for a "tv" uri, and
    otherwise the uri itself when it is non-empty; the channel is set for
    a "tv" uri only. *)
Theorem playing_content_type :
  forall (rt : Runtime) (w : World) (p : PlayingInfo),
    client rt _ (log w) get_playing_info = inl p ->
    timestamp_ok rt p = true ->
    exists w',
      async_update_playing rt w = (w', inl tt) /\
      media_content_type (coord w')
        = (if playing_info_empty p then Some MediaType.APP
           else if plays_tv p then Some MediaType.CHANNEL else None) /\
      media_content_id (coord w')
        = (if playing_info_empty p then None
           else if plays_tv p then get (p_dispNum p)
           else if truthy (get (p_uri p)) then get (p_uri p) else None) /\
      media_channel (coord w')
        = (if playing_info_empty p then None
           else if plays_tv p
                then or_else (get (p_title p)) (get (p_dispNum p))
                else None).
Proof.
  intros rt w p Hc Hts.
  destruct (playing_outcome rt w p Hc Hts)
    as (w' & Hrun & _ & _ & Htype & Hid & Hchannel & _).
  exists w'. repeat split; assumption.
Qed.

Lemma playing_content_type_witness :
  exists w',
    async_update_playing (Concrete.runtime Sample.console_script)
      Sample.watching_tv = (w', inl tt) /\
    media_content_type (coord w') = None /\
    media_content_id (coord w') = Some "extInput:hdmi?port=1"%string /\
    media_channel (coord w') = None.
Proof.
  exact (playing_content_type (Concrete.runtime Sample.console_script)
           Sample.watching_tv _ eq_refl eq_refl).
Defined.

(** X17: navigation follows what the deriver found.  After a playback
    refresh that returned, next track sends [channel_up] and previous
    track [channel_down] when the payload's uri starts with "tv", and
    [next_track] and [previous_track] in every other case, the empty
    payload included. *)
Theorem navigation_follows_playing :
  forall (rt : Runtime) (w : World) (p : PlayingInfo),
    client rt _ (log w) get_playing_info = inl p ->
    timestamp_ok rt p = true ->
    exists w',
      async_update_playing rt w = (w', inl tt) /\
      (exists rest,
         log (fst (async_media_next_track rt w'))
           = log w' ++ Called (if plays_tv p then channel_up else next_track)
                       :: rest) /\
      (exists rest,
         log (fst (async_media_previous_track rt w'))
           = log w' ++ Called (if plays_tv p then channel_down
                               else previous_track) :: rest).
Proof.
  intros rt w p Hc Hts.
  destruct (playing_outcome rt w p Hc Hts)
    as (w' & Hrun & _ & _ & Htype & _).
  exists w'. split; [exact Hrun|].
  assert (Hempty : playing_info_empty p = true -> plays_tv p = false).
  { unfold playing_info_empty, plays_tv. destruct (p_uri p); cbn; auto.
    rewrite !orb_true_r. discriminate. }
  unfold async_media_next_track, async_media_previous_track,
    catch_braviatv_errors, async_media_next_track__wrapped,
    async_media_previous_track__wrapped.
  run. rewrite Htype.
  destruct (playing_info_empty p); [rewrite (Hempty eq_refl)|];
    [|destruct (plays_tv p)]; cbn;
    split;
    match goal with
    | |- context [client ?r unit ?l ?c] =>
        destruct (client r unit l c) as [[]|e]; cbn;
        [|destruct (is_BraviaError e); cbn];
        eexists; rewrite <- ?app_assoc; reflexivity
    end.
Qed.

Lemma navigation_follows_playing_witness :
  exists w',
    async_update_playing (Concrete.runtime Sample.tv_script)
      (Concrete.fresh true) = (w', inl tt) /\
    exists rest,
      log (fst (async_media_next_track (Concrete.runtime Sample.tv_script) w'))
        = log w' ++ Called channel_up :: rest.
Proof.
  destruct (navigation_follows_playing (Concrete.runtime Sample.tv_script)
              (Concrete.fresh true) _ eq_refl eq_refl)
    as (w' & Hrun & Hnext & _).
  exists w'. split; [exact Hrun|exact Hnext].
Defined.

Ltac clash :=
  repeat first
    [ progress cbn [negb andb orb] in *
    | match goal with
      | H : negb _ = true |- _ => apply negb_true_iff in H
      | H : negb _ = false |- _ => apply negb_false_iff in H
      | H : ?b = true, H' : context [?b] |- _ => rewrite H in H'
      | H : ?b = false, H' : context [?b] |- _ => rewrite H in H'
      end ];
  try congruence.

(** X18: the external-input branch.  For a payload whose uri starts
    with "extInput" and whose start timestamp is absent, empty or accepted
    by [datetime.fromisoformat], the deriver returns, and the label shown
    is the catalog label of that uri when user labels are enabled and it
    is non-empty, else the payload's label; title and source are both that
    label when it is non-empty and both the payload's title otherwise; the
    content id is the uri and content type and channel are unset. *)
Theorem playing_external_input :
  forall (rt : Runtime) (w : World) (p : PlayingInfo) (u : string),
    client rt _ (log w) get_playing_info = inl p ->
    get (p_uri p) = Some u ->
    startswith u "extInput" = true ->
    timestamp_ok rt p = true ->
    let from_catalog :=
      match catalog_label (coord w) p with
      | Some f => get f
      | None => None
      end in
    let label :=
      if truthy from_catalog then from_catalog else get (p_label p) in
    let shown := if truthy label then label else get (p_title p) in
    exists w',
      async_update_playing rt w = (w', inl tt) /\
      media_title (coord w') = shown /\
      source (coord w') = shown /\
      media_content_id (coord w') = Some u /\
      media_content_type (coord w') = None /\
      media_channel (coord w') = None.
Proof.
  intros rt w p u Hc Hu Hext Hts from_catalog label shown.
  subst shown label from_catalog. unfold catalog_label. rewrite Hu.
  pose proof (uri_not_empty _ _ Hu) as Hne.
  assert (Htr : truthy (Some u) = true)
    by (apply (truthy_startswith u "extInput"); [discriminate|assumption]).
  assert (Hmem : dict_mem (source_map (coord w)) u
                 = match dict_get (source_map (coord w)) u with
                   | Some _ => true
                   | None => false
                   end) by reflexivity.
  destruct (enable_user_labels (coord w)) eqn:Hen;
    destruct (dict_get (source_map (coord w)) u) as [e|] eqn:Hget;
    playing_start Hc Hts; rewrite Hne; cbn;
    rewrite Hu, Hext, Hen, ?Hmem, ?Hget; cbn; cbn in Htr; rewrite Htr; cbn;
    break_ifs; cbn; try discriminate; clash; eexists; repeat split.
Qed.

Lemma playing_external_input_witness :
  exists w',
    async_update_playing (Concrete.runtime Sample.console_script)
      Sample.console = (w', inl tt) /\
    media_title (coord w') = Some "Game Console"%string /\
    source (coord w') = Some "Game Console"%string /\
    media_content_id (coord w') = Some "extInput:hdmi?port=1"%string.
Proof.
  destruct (playing_external_input (Concrete.runtime Sample.console_script)
              Sample.console _ "extInput:hdmi?port=1" eq_refl eq_refl eq_refl
              eq_refl) as (w' & Hrun & Htitle & Hsource & Hid & _).
  exists w'. repeat split; assumption.
Defined.

(** X19: the branch for apps and anything else.  For a payload that is
    not empty, whose uri starts with neither "extInput" nor "tv" and whose
    start timestamp is absent, empty or accepted by
    [datetime.fromisoformat], the deriver returns, and the label is the
    payload's label, replaced by the label of the catalog entry of that
    uri when user labels are enabled and the entry exists: by its value
    when the entry has the key, also when that value is empty or null.  A
    non-empty label becomes title and source; otherwise a non-empty
    payload title becomes the source and the title stays the payload's;
    otherwise the source stays unset. *)
Theorem playing_other :
  forall (rt : Runtime) (w : World) (p : PlayingInfo),
    client rt _ (log w) get_playing_info = inl p ->
    playing_info_empty p = false ->
    plays_input p = false ->
    plays_tv p = false ->
    timestamp_ok rt p = true ->
    let label :=
      match catalog_label (coord w) p with
      | Some f => get_or f (get (p_label p))
      | None => get (p_label p)
      end in
    exists w',
      async_update_playing rt w = (w', inl tt) /\
      media_title (coord w')
        = (if truthy label then label else get (p_title p)) /\
      source (coord w')
        = (if truthy label then label
           else if truthy (get (p_title p)) then get (p_title p) else None) /\
      media_content_type (coord w') = None.
Proof.
  intros rt w p Hc Hne Hinput Htv Hts label. subst label.
  unfold catalog_label, plays_input, plays_tv in *.
  destruct (get (p_uri p)) as [u|] eqn:Hu.
  - assert (Hmem : dict_mem (source_map (coord w)) u
                   = match dict_get (source_map (coord w)) u with
                     | Some _ => true
                     | None => false
                     end) by reflexivity.
    destruct (enable_user_labels (coord w)) eqn:Hen;
      destruct (dict_get (source_map (coord w)) u) as [e|] eqn:Hget;
      playing_start Hc Hts; rewrite Hne; cbn;
      rewrite Hu, Hinput, Htv, Hen, ?Hmem, ?Hget; cbn;
      break_ifs; cbn; try discriminate; clash; eexists; repeat split.
  - playing_start Hc Hts; rewrite Hne; cbn; rewrite Hu; cbn;
      break_ifs; cbn; try discriminate; clash; eexists; repeat split.
Qed.

Lemma playing_other_witness :
  let p := mkPlayingInfo (Val "Netflix") (Val "com.sony.dtv.netflix")
             (Val "From the device") Missing Missing Missing Missing
             []%string in
  let rt := Concrete.runtime
              (Concrete.mkScript (inl tt) (inl "active") (inl [])
                 (inl Concrete.no_volume) (inl p) (inl []) (inl []) (inl [])
                 (inl true) (inl []))%string in
  let hidden :=
    mkWorld (set_source_map
               [("com.sony.dtv.netflix",
                 mkEntry (mkItem (Val "Netflix") (Val "")
                            (Val "com.sony.dtv.netflix") Missing)
                   SourceType.APP)]%string
               (coord (Concrete.fresh true))) [] 0 in
  (exists w',
     async_update_playing rt (Concrete.fresh true) = (w', inl tt) /\
     media_title (coord w') = Some "From the device"%string /\
     source (coord w') = Some "From the device"%string /\
     media_content_type (coord w') = None) /\
  (exists w',
     async_update_playing rt hidden = (w', inl tt) /\
     media_title (coord w') = Some "Netflix"%string /\
     source (coord w') = Some "Netflix"%string /\
     media_content_type (coord w') = None).
Proof.
  intros p rt hidden. split.
  - exact (playing_other rt (Concrete.fresh true) p eq_refl eq_refl eq_refl
             eq_refl eq_refl).
  - exact (playing_other rt hidden p eq_refl eq_refl eq_refl eq_refl eq_refl).
Defined.

(** X20: playback position.  When the deriver returns, position and
    position timestamp are both set or both unset: unset when the payload
    has no start timestamp or an empty one, and otherwise the position is
    [int(delta.total_seconds())] for the span [delta] from the parsed
    start to the first reading of the clock, that is the binary64 quotient
    of the microseconds by [10**6] truncated toward zero, stamped with the
    second reading of the clock. *)
Theorem playing_position :
  forall (rt : Runtime) (w : World) (p : PlayingInfo),
    client rt _ (log w) get_playing_info = inl p ->
    timestamp_ok rt p = true ->
    exists w',
      async_update_playing rt w = (w', inl tt) /\
      (media_position (coord w') = None <->
       media_position_updated_at (coord w') = None) /\
      (truthy (get (p_startDateTime p)) = false ->
       media_position (coord w') = None /\
       clock_reads w' = clock_reads w) /\
      (forall s t,
         get (p_startDateTime p) = Some s ->
         truthy (Some s) = true ->
         fromisoformat rt s = Some t ->
         media_position (coord w')
           = Some (total_seconds_int (now rt (clock_reads w) - t)) /\
         media_position_updated_at (coord w')
           = Some (now rt (S (clock_reads w))) /\
         clock_reads w' = S (S (clock_reads w))).
Proof.
  intros rt w p Hc Hts.
  destruct (playing_outcome rt w p Hc Hts)
    as (w' & Hrun & _ & _ & _ & _ & _ & Hpos & Hupd & Hclock).
  exists w'. split; [exact Hrun|].
  rewrite Hpos, Hupd, Hclock. unfold timestamp_ok in Hts.
  destruct (get (p_startDateTime p)) as [s|] eqn:Hs.
  - destruct (truthy (Some s)) eqn:Hst.
    + destruct (fromisoformat rt s) as [t|] eqn:Hf; [|discriminate Hts].
      split; [split; discriminate|]. split; [discriminate|].
      intros s' t' [= <-] _ Hf'. rewrite Hf in Hf'. injection Hf' as <-. auto.
    + split; [split; reflexivity|]. split; [auto|].
      intros s' t' [= <-] Hst'. congruence.
  - split; [split; reflexivity|]. split; [auto|]. discriminate.
Qed.

Lemma playing_position_witness :
  let p := mkPlayingInfo (Val "NewsCh") (Val "tv:dvbt") Missing (Val "5")
             Missing (Val "1970-01-01T00:00:10") Missing []%string in
  let sc := (Concrete.mkScript (inl tt) (inl "active") (inl [])
               (inl Concrete.no_volume) (inl p) (inl []) (inl []) (inl [])
               (inl true) (inl []))%string in
  let clock first :=
    mkRuntime (Concrete.scripted sc) Concrete.lower Concrete.isnumeric
      Concrete.int
      (fun s => if (s =? "1970-01-01T00:00:10")%string
                then Some 10000000 else None)
      (fun n => first + Z.of_nat n) in
  (exists w',
     async_update_playing (clock 75500000) Sample.watching_tv = (w', inl tt) /\
     media_position (coord w') = Some 65 /\
     media_position_updated_at (coord w') = Some 75500001) /\
  (exists w',
     async_update_playing (clock 63929260810999999) Sample.watching_tv
       = (w', inl tt) /\
     media_position (coord w') = Some 63929260801).
Proof.
  intros p sc clock. split.
  - destruct (playing_position (clock 75500000) Sample.watching_tv p
                eq_refl eq_refl) as (w' & Hrun & _ & _ & Hset).
    destruct (Hset "1970-01-01T00:00:10"%string 10000000
                eq_refl eq_refl eq_refl) as (Hpos & Hupd & _).
    exists w'. split; [exact Hrun|]. split; [exact Hpos|exact Hupd].
  - destruct (playing_position (clock 63929260810999999) Sample.watching_tv p
                eq_refl eq_refl) as (w' & Hrun & _ & _ & Hset).
    destruct (Hset "1970-01-01T00:00:10"%string 10000000
                eq_refl eq_refl eq_refl) as (Hpos & _).
    exists w'. split; [exact Hrun|]. rewrite Hpos. vm_compute. reflexivity.
Defined.

(** X21: a start timestamp that [datetime.fromisoformat] rejects.  The
    deriver raises [ValueError] after it has overwritten title, uri and
    duration from the payload and cleared channel, content id, content
    type and source; position and position timestamp keep the values of
    the previous cycle, and no branch on the uri is run. *)
Theorem playing_bad_timestamp :
  forall (rt : Runtime) (w : World) (p : PlayingInfo) (s : string),
    client rt _ (log w) get_playing_info = inl p ->
    get (p_startDateTime p) = Some s ->
    truthy (Some s) = true ->
    fromisoformat rt s = None ->
    async_update_playing rt w
    = (mkWorld (playing_reset p (coord w))
         (log w ++ [Called get_playing_info]) (clock_reads w),
       inr (ValueError ("Invalid isoformat string: '" ++ s ++ "'")%string)) /\
    media_position (playing_reset p (coord w)) = media_position (coord w) /\
    media_position_updated_at (playing_reset p (coord w))
      = media_position_updated_at (coord w).
Proof.
  intros rt w p s Hc Hs Hst Hf. split; [|split; reflexivity].
  unfold async_update_playing. unfold bind at 1. unfold await at 1.
  rewrite Hc, Hs, Hst. run. rewrite Hf. reflexivity.
Qed.

Lemma playing_bad_timestamp_witness :
  let p := mkPlayingInfo (Val "NewsCh") (Val "tv:dvbt") Missing (Val "5")
             Missing (Val "yesterday") Missing []%string in
  let rt := Concrete.runtime
              (Concrete.mkScript (inl tt) (inl "active") (inl [])
                 (inl Concrete.no_volume) (inl p) (inl []) (inl []) (inl [])
                 (inl true) (inl []))%string in
  async_update_playing rt Sample.watching_tv
  = (mkWorld (playing_reset p (coord Sample.watching_tv))
       (log Sample.watching_tv ++ [Called get_playing_info]) 0,
     inr (ValueError "Invalid isoformat string: 'yesterday'")).
Proof.
  intros p rt.
  apply (proj1 (playing_bad_timestamp rt Sample.watching_tv p "yesterday"
                  eq_refl eq_refl eq_refl eq_refl)).
Defined.

(** ** Volume, further *)

(** On the device's scale the float arithmetic of a set-volume call gives
    back the integer: for [v] from 0 to 100, [round(v / 100 * 100)] is
    [v]. *)
Lemma percent_round_trip (v : Z) :
  0 <= v <= 100 ->
  is_inf (round64 (round64 (v # 100) * 100)) = false /\
  round (round64 (round64 (v # 100) * 100)) = v.
Proof.
  intros Hv.
  assert (Hall : forallb
                   (fun n =>
                      let v := Z.of_nat n in
                      negb (is_inf (round64 (round64 (v # 100) * 100)))
                      && (round (round64 (round64 (v # 100) * 100)) =? v))
                   (seq 0 101) = true) by (vm_compute; reflexivity).
  rewrite forallb_forall in Hall.
  specialize (Hall (Z.to_nat v)). cbv zeta in Hall.
  rewrite Z2Nat.id in Hall by lia.
  assert (Hin : In (Z.to_nat v) (seq 0 101)) by (apply in_seq; lia).
  apply Hall, andb_prop in Hin. destruct Hin as [Hinf Hround].
  apply negb_true_iff in Hinf. apply Z.eqb_eq in Hround. auto.
Qed.

(** X22: volume round trip on the device's scale.  For a device volume
    [v] from 0 to 100, the level a volume refresh stores is the level
    that, given back to [async_set_volume_level], sends [v] to the
    device: [round(v / 100 * 100)] is [v] in binary64 arithmetic. *)
Theorem volume_round_trip :
  forall (rt : Runtime) (w : World) (info : VolumeInfo) (v : Z),
    client rt _ (log w) get_volume_info = inl info ->
    v_volume info = Val v ->
    0 <= v <= 100 ->
    exists w1 level,
      async_update_volume rt w = (w1, inl tt) /\
      volume_level (coord w1) = Some level /\
      forall w2,
        exists rest,
          log (fst (async_set_volume_level rt level w2))
            = log w2 ++ Called (volume_level_ v) :: rest.
Proof.
  intros rt w info v Hc Hv Hrange. unfold async_update_volume. run.
  rewrite Hc, Hv. cbn. eexists. exists (finite (v # 100)).
  split; [reflexivity|]. split; [reflexivity|]. intros w2.
  destruct (percent_round_trip v Hrange) as [Hinf Hround].
  unfold async_set_volume_level, catch_braviatv_errors,
    async_set_volume_level__wrapped.
  rewrite Hinf, Hround. run.
  destruct (client rt unit (log w2) (volume_level_ v)) as [[]|e]; cbn;
    [|destruct (is_BraviaError e); cbn];
    eexists; rewrite <- ?app_assoc; reflexivity.
Qed.

Lemma volume_round_trip_witness :
  let rt := Concrete.runtime Sample.tv_script in
  (exists w1 level,
     async_update_volume rt (Concrete.fresh true) = (w1, inl tt) /\
     volume_level (coord w1) = Some level /\
     exists rest,
       log (fst (async_set_volume_level rt level w1))
         = log w1 ++ Called (volume_level_ 37) :: rest) /\
  log (fst (async_set_volume_level rt (finite (575 # 1000))
              (Concrete.fresh true)))
    = [Called (volume_level_ 57); RefreshRequested].
Proof.
  intros rt. split; [|vm_compute; reflexivity].
  destruct (volume_round_trip rt (Concrete.fresh true) _ 37 eq_refl eq_refl)
    as (w1 & level & Hrun & Hlevel & Hset); [lia|].
  exists w1, level. split; [exact Hrun|]. split; [exact Hlevel|]. apply Hset.
Defined.

(** ** The refresh cycle, when it goes through *)

Lemma connect_step_connected (rt : Runtime) (s : Coordinator) (w w1 : World) :
  coord w = s ->
  (if negb (connected s) then
     try_except
       ((if use_psk s then await rt (connect_psk (pin s))
         else await rt (connect_pin (pin s) (client_id s) (nickname s))) ;;
        assign (set_connected true))
       (fun err =>
          match err with
          | BraviaError BraviaAuthError _ => Some (raise ConfigEntryAuthFailed)
          | _ => None
          end)
   else pass) w = (w1, inl tt) ->
  connected (coord w1) = true.
Proof.
  intros Hs. destruct (connected s) eqn:Hconn; cbn [negb].
  - intros [= <-]. rewrite Hs. exact Hconn.
  - unfold try_except, bind, assign.
    destruct (use_psk s); unfold await;
      match goal with
      | |- context [client ?r unit ?l ?c] =>
          destruct (client r unit l c) as [[]|[[] ?| | | | | |]]
      end; cbn; intros [= <-]; reflexivity.
Qed.

Section Connected.

Variable rt : Runtime.

Let P (w : World) : Prop :=
  connected (coord w) = true /\ skipped_updates (coord w) = 0.

Lemma sources_extend_connected sources kind add sort :
  stable P (_sources_extend sources kind add sort).
Proof.
  intros w [Hc Hs]. rewrite sources_extend_run.
  destruct (if truthy sort then _ else _); [|split; assumption].
  cbn [fst coord]. rewrite extended_frame. split; assumption.
Qed.

Lemma after_power_connected (w w' : World) (r : res unit) :
  P w ->
  (s <- self ;;
   (match system_info s with
    | [] =>
        info <- await rt get_system_info ;;
        assign (set_system_info info)
    | _ => pass
    end) ;;
   s <- self ;;
   if negb (is_on s) then ret tt
   else
     (match source_map s with
      | [] => async_update_sources rt
      | _ => pass
      end) ;;
     async_update_volume rt ;;
     async_update_playing rt) w = (w', r) ->
  P w'.
Proof.
  intros HP Hrun.
  match type of Hrun with
  | ?m w = _ =>
      assert (Hs : stable P m);
        [|specialize (Hs w HP); rewrite Hrun in Hs; exact Hs]
  end.
  unfold async_update_sources, async_update_volume, async_update_playing.
  repeat first
    [ match goal with
      | |- stable _ (_sources_extend _ _ _ _) =>
          apply sources_extend_connected
      end
    | stable_walk ];
    assumption.
Qed.

End Connected.

(** X23: a refresh cycle whose body runs to its end, device on or off,
    leaves the coordinator connected with [skipped_updates] at zero. *)
Theorem refresh_success_connected :
  forall (rt : Runtime) (w w' : World),
    update_body rt w = (w', inl tt) ->
    _async_update_data rt w = (w', inl tt) /\
    connected (coord w') = true /\
    skipped_updates (coord w') = 0.
Proof.
  intros rt w w' Hbody. split.
  - unfold _async_update_data, try_except. rewrite Hbody. reflexivity.
  - revert Hbody. unfold update_body. unfold bind at 1. unfold self at 1.
    unfold bind at 1.
    match goal with
    | |- context [match ?m w with _ => _ end] =>
        destruct (m w) as [w1 [[]|e]] eqn:Hconnect; [|discriminate]
    end.
    apply (connect_step_connected rt (coord w) w w1 eq_refl) in Hconnect.
    rewrite bind_await.
    destruct (client rt string (log w1) get_power_status) as [status|e];
      [|discriminate].
    rewrite !bind_assign. cbv beta. cbn [coord log clock_reads]. intros Hrest.
    eapply after_power_connected; [|exact Hrest].
    split; [exact Hconnect|reflexivity].
Qed.

Lemma refresh_success_connected_witness :
  connected (coord (Concrete.fresh true)) = false /\
  exists w',
    _async_update_data (Concrete.runtime Sample2.standby) (Concrete.fresh true)
      = (w', inl tt) /\
    connected (coord w') = true /\
    skipped_updates (coord w') = 0 /\
    is_on (coord w') = false.
Proof.
  split; [reflexivity|].
  destruct (refresh_success_connected (Concrete.runtime Sample2.standby)
              (Concrete.fresh true) _ eq_refl) as (Hrun & Hconn & Hskip).
  eexists. split; [exact Hrun|]. split; [exact Hconn|].
  split; [exact Hskip|reflexivity].
Defined.

Lemma bind_self {B} (k : Coordinator -> M B) (w : World) :
  bind self k w = k (coord w) w.
Proof. reflexivity. Qed.

(** The body of the cycle on a coordinator that is not connected: the
    [connect] call, then the body as a connected coordinator runs it. *)
Lemma update_body_connects (rt : Runtime) (w : World) :
  connected (coord w) = false ->
  let w1 c := mkWorld c (log w ++ [Called (connect_call (coord w))])
                (clock_reads w) in
  update_body rt w
  = match client rt unit (log w) (connect_call (coord w)) with
    | inl _ => update_body rt (w1 (set_connected true (coord w)))
    | inr (BraviaError BraviaAuthError _) =>
        (w1 (coord w), inr ConfigEntryAuthFailed)
    | inr e => (w1 (coord w), inr e)
    end.
Proof.
  intros Hconn w1. subst w1. unfold update_body, connect_call.
  rewrite !bind_self. cbv beta. cbn [coord connected set_connected negb].
  rewrite Hconn. cbn [negb].
  unfold bind at 1. unfold try_except at 1. unfold bind at 1.
  destruct (use_psk (coord w)); unfold await at 1;
    match goal with
    | |- context [client ?r unit ?l ?c] =>
        destruct (client r unit l c) as [[]|[[] ?| | | | | |]]
    end; reflexivity.
Qed.

(** X24: a coordinator that is not connected starts every refresh cycle
    by connecting: the first event the cycle adds is the [connect] call
    with the configured credentials, pre-shared key or pin with client id
    and nickname; when the call returns, the cycle goes on exactly as the
    cycle of a connected coordinator. *)
Theorem disconnected_connects_first :
  forall (rt : Runtime) (w : World),
    connected (coord w) = false ->
    (exists rest,
       log (fst (_async_update_data rt w))
         = log w ++ Called (connect_call (coord w)) :: rest) /\
    (client rt unit (log w) (connect_call (coord w)) = inl tt ->
     _async_update_data rt w
     = _async_update_data rt
         (mkWorld (set_connected true (coord w))
            (log w ++ [Called (connect_call (coord w))]) (clock_reads w))).
Proof.
  intros rt w Hconn.
  pose proof (update_body_connects rt w Hconn) as Hbody. cbv zeta in Hbody.
  assert (Hsame : forall a,
             client rt unit (log w) (connect_call (coord w)) = inl a ->
             _async_update_data rt w
             = _async_update_data rt
                 (mkWorld (set_connected true (coord w))
                    (log w ++ [Called (connect_call (coord w))])
                    (clock_reads w))).
  { intros a Hc. rewrite Hc in Hbody. unfold _async_update_data, try_except.
    rewrite Hbody. reflexivity. }
  split; [|apply Hsame].
  destruct (client rt unit (log w) (connect_call (coord w))) as [a|e] eqn:Hc.
  - rewrite (Hsame a eq_refl).
    destruct (refresh_queries rt _ _ (appended_refl is_query
                (mkWorld (set_connected true (coord w))
                   (log w ++ [Called (connect_call (coord w))])
                   (clock_reads w)))) as (l & Hl & _).
    exists l. rewrite Hl. cbn [log]. rewrite <- app_assoc. reflexivity.
  - unfold _async_update_data, try_except. rewrite Hbody.
    exists []. destruct e as [[] ?| | | | | |]; run; cbn;
      try reflexivity.
    destruct (skipped_updates (coord w) <? 10); reflexivity.
Qed.

Lemma disconnected_connects_first_witness :
  exists rest,
    log (fst (_async_update_data (Concrete.runtime Sample.tv_script)
                (Concrete.fresh true)))
      = Called (connect_pin "0000" "client" "nick") :: rest.
Proof.
  destruct (disconnected_connects_first (Concrete.runtime Sample.tv_script)
              (Concrete.fresh true) eq_refl) as [(rest & Hlog) _].
  exists rest. exact Hlog.
Defined.
